(** * AUTO_Call: the Twilio call-flow router and its transcription jobs

    A shallow embedding of [app/models.py] and [app/routers/twilio.py].

    - The SQLAlchemy models are records; a table is the list of its rows in
      storage order, and the database is the record of its tables.
    - A request handler is a function from the callback parameters and the
      database to the new database, the background jobs it scheduled and
      the HTTP response.  An exception that leaves a handler is the
      framework's 500 answer, [ServerError].
    - A background transcription job runs against a [World]: the answers
      the outside services (Twilio download, temp file, Whisper, storage)
      give to this run.  It returns the new database and the trace of
      downloads and sleeps.

    Strings are Python [str] values, held as their UTF-8 bytes.  Integer
    columns are [Z].  The
    timestamp columns ([created_at], [updated_at], [started_at],
    [deleted_at]) are written by column defaults and read by nothing in the
    router; they are left out of the records.  Boolean columns are read
    only through truthiness or [== True], under which NULL behaves as
    [false]; they are [bool].  [sort_order] columns are [Z]. *)

From Stdlib Require Import ZArith List String Ascii Bool Lia DecimalString.
From Stdlib Require Import Permutation Sorted DecimalZ.
Import ListNotations.
Open Scope string_scope.
Open Scope Z_scope.

(** ** app/models.py *)

Module models.

Module Scenario.
Record t := {
  id : Z;
  name : string;
  greeting_text : option string;
  disclaimer_text : option string;
  question_guidance_text : option string;
  is_active : bool
}.
End Scenario.

Module EndingGuidance.
Record t := {
  id : Z;
  scenario_id : option Z;
  text : string;
  sort_order : Z
}.
End EndingGuidance.

Module PhoneNumber.
Record t := {
  to_number : string;
  scenario_id : option Z;
  label : option string;
  is_active : bool
}.
End PhoneNumber.

Module Question.
Record t := {
  id : Z;
  scenario_id : option Z;
  text : string;
  sort_order : Z;
  is_active : bool
}.
End Question.

Module Call.
Record t := {
  call_sid : string;
  from_number : string;
  to_number : string;
  scenario_id : option Z;
  status : string;
  recording_sid : option string
}.
End Call.

Module Message.
Record t := {
  id : Z;
  call_sid : string;
  recording_sid : option string;
  recording_url : option string;
  transcript_text : option string
}.
End Message.

Module Answer.
Record t := {
  id : Z;
  call_sid : string;
  question_id : option Z;
  answer_type : string;
  recording_sid : option string;
  recording_url_twilio : option string;
  storage_url : option string;
  storage_status : string;
  transcript_text : option string;
  transcript_status : string;
  question_sort_at_call : Z
}.
End Answer.

Module TranscriptionLog.
Record t := {
  id : Z;
  answer_id : option Z;
  service : string;
  status : string;
  audio_bytes : option Z;
  audio_duration : option Z;
  model_name : option string;
  language : string;
  request_payload : option string;
  response_payload : option string;
  processing_time : Z
}.
End TranscriptionLog.

End models.
Import models.

(** ** The database: one list of rows per table, in storage order *)

Record DB := {
  scenarios : list Scenario.t;
  ending_guidances : list EndingGuidance.t;
  phone_numbers : list PhoneNumber.t;
  questions : list Question.t;
  calls : list Call.t;
  messages : list Message.t;
  answers : list Answer.t;
  transcription_logs : list TranscriptionLog.t
}.

Definition set_calls (db : DB) (v : list Call.t) : DB :=
  {| scenarios := scenarios db; ending_guidances := ending_guidances db;
     phone_numbers := phone_numbers db; questions := questions db;
     calls := v; messages := messages db; answers := answers db;
     transcription_logs := transcription_logs db |}.

Definition set_messages (db : DB) (v : list Message.t) : DB :=
  {| scenarios := scenarios db; ending_guidances := ending_guidances db;
     phone_numbers := phone_numbers db; questions := questions db;
     calls := calls db; messages := v; answers := answers db;
     transcription_logs := transcription_logs db |}.

Definition set_answers (db : DB) (v : list Answer.t) : DB :=
  {| scenarios := scenarios db; ending_guidances := ending_guidances db;
     phone_numbers := phone_numbers db; questions := questions db;
     calls := calls db; messages := messages db; answers := v;
     transcription_logs := transcription_logs db |}.

Definition set_transcription_logs (db : DB) (v : list TranscriptionLog.t) : DB :=
  {| scenarios := scenarios db; ending_guidances := ending_guidances db;
     phone_numbers := phone_numbers db; questions := questions db;
     calls := calls db; messages := messages db; answers := answers db;
     transcription_logs := v |}.

(** ** Query helpers *)

(** [col == v] on a nullable column: NULL matches nothing. *)
Definition eq_opt_Z (col : option Z) (v : Z) : bool :=
  match col with Some x => x =? v | None => false end.

Definition eq_opt_string (col : option string) (v : string) : bool :=
  match col with Some x => String.eqb x v | None => false end.

(** [.first()]: the first row of the result, or None. *)
Definition first {A} (rows : list A) : option A := hd_error rows.

(** [.order_by(key)]: the rows in ascending key order.  SQL leaves the
    order of rows with equal keys to the store; the sort here is stable
    (rows with equal keys keep their storage order), which is one of the
    orders the store may return.  The properties below that speak of the
    first row of a sorted query state its key to be the least one and do
    not say which of several rows with that key is returned. *)
Fixpoint insert_by {A} (key : A -> Z) (x : A) (sorted : list A) : list A :=
  match sorted with
  | [] => [x]
  | y :: rest =>
      if key y <=? key x then y :: insert_by key x rest else x :: y :: rest
  end.

Definition order_by {A} (key : A -> Z) (rows : list A) : list A :=
  fold_left (fun sorted x => insert_by key x sorted) rows [].

(** A primary key handed out on INSERT into a table with an integer key:
    one more than the largest key in use. *)
Definition next_id (ids : list Z) : Z := fold_right Z.max 0 ids + 1.

(** Python truthiness of a nullable string: None and the empty string are
    false. *)
Definition truthy (s : option string) : option string :=
  match s with
  | Some "" => None
  | other => other
  end.

(** [str(n)] for an int, as f-strings format it. *)
Definition str_int (z : Z) : string := NilEmpty.string_of_int (Z.to_int z).

(** ** Call-control markup (twilio.twiml.voice_response)

    A [VoiceResponse] is the sequence of verbs appended to it; [str(vr)]
    serialises exactly this sequence, one XML element per verb. *)

Inductive Verb :=
| Say (text language : string)
| Pause (length : string)
| RecordVerb (action finish_on_key : string) (timeout max_length : Z)
| Gather (num_digits : Z) (action : string) (timeout : Z)
    (says : list (string * string))   (* the nested say(text, language) *)
| Redirect (url : string)
| Hangup.

Definition VoiceResponse := list Verb.

Inductive Exception :=
| AttributeError (msg : string)
| IntegrityError (msg : string)
| OtherError (msg : string).

(** What the web framework sends back: the handler's [Response], or a 500
    answer when an exception leaves the handler. *)
Inductive HttpResponse :=
| Response (content : VoiceResponse) (media_type : string)
| PlainResponse (content : string) (media_type : string)
| ServerError (e : Exception).

(** A task handed to [asyncio.create_task]. *)
Inductive Job :=
| transcribe_with_whisper_task (answer_id : Z) (recording_url recording_sid : string)
| transcribe_message_with_whisper_task (message_id : Z) (recording_url recording_sid : string).

Definition is_record (v : Verb) : bool :=
  match v with RecordVerb _ _ _ _ => true | _ => false end.

Definition is_markup (r : HttpResponse) : bool :=
  match r with
  | Response _ media => String.eqb media "application/xml"
  | _ => false
  end.

(** ** handle_incoming_call  (POST /twilio/voice) *)

(** [s.replace(old, '')] for a one-character [old]. *)
Fixpoint replace_with_empty (old : ascii) (s : string) : string :=
  match s with
  | EmptyString => EmptyString
  | String c rest =>
      if Ascii.eqb c old then replace_with_empty old rest
      else String c (replace_with_empty old rest)
  end.

Definition startswith_plus (s : string) : bool :=
  match s with
  | String c _ => Ascii.eqb c "+"%char
  | EmptyString => false
  end.

Definition normalize_phone (number : string) : string :=
  let normalized :=
    replace_with_empty ")"%char
      (replace_with_empty "("%char
        (replace_with_empty "-"%char
          (replace_with_empty " "%char number))) in
  if negb (startswith_plus normalized) then "+" ++ normalized else normalized.

(** Step 1 of the handler, "Lookup Scenario": the exact match, then the
    scan over all rows comparing normalised numbers. *)
Definition lookup_phone_entry (db : DB) (To : string) : option PhoneNumber.t :=
  let to_normalized := normalize_phone To in
  match first (filter (fun pn => String.eqb (PhoneNumber.to_number pn) To)
                 (phone_numbers db)) with
  | Some phone_entry => Some phone_entry
  | None =>
      find (fun pn => String.eqb (normalize_phone (PhoneNumber.to_number pn)) to_normalized)
        (phone_numbers db)
  end.

(** The [scenario] relationship of a PhoneNumber: the row its foreign key
    names, None when the key is NULL or names no row. *)
Definition phone_scenario (db : DB) (pn : PhoneNumber.t) : option Scenario.t :=
  match PhoneNumber.scenario_id pn with
  | Some sid => first (filter (fun s => Scenario.id s =? sid) (scenarios db))
  | None => None
  end.

(** The outcome of "Start Full Call Recording". *)
Inductive RecordingStart :=
| credentials_unset
| recording_created (sid : string)
| recording_failed (e : Exception).

Definition started_sid (r : RecordingStart) : option string :=
  match r with recording_created sid => Some sid | _ => None end.

Definition DEFAULT_GUIDANCE : string :=
  "このあと何点か質問をさせていただきます。回答が済みましたらシャープを押して次に進んでください".

Definition NOT_IN_SERVICE : string := "現在この番号は使われておりません。".

Definition say_ja (text : string) : Verb := Say text "ja-JP".

Definition say_if (text : option string) : VoiceResponse :=
  match truthy text with Some t => [say_ja t] | None => [] end.

(** Steps 3 and 4: greeting, disclaimer, guidance, pause. *)
Definition greeting_and_guidance (scenario : Scenario.t) : VoiceResponse :=
  (say_if (Scenario.greeting_text scenario)
  ++ say_if (Scenario.disclaimer_text scenario)
  ++ [say_ja (match truthy (Scenario.question_guidance_text scenario) with
              | Some t => t
              | None => DEFAULT_GUIDANCE
              end);
      Pause "1.5"])%list.

Definition record_callback_url (scenario_id q_curr : Z) : string :=
  "/twilio/record_callback?scenario_id=" ++ str_int scenario_id
  ++ "&q_curr=" ++ str_int q_curr.

(** Ask-Question: speak the text, record with no silence timeout. *)
Definition ask_question (scenario_id : Z) (q : Question.t) : VoiceResponse :=
  [say_ja (Question.text q);
   RecordVerb (record_callback_url scenario_id (Question.id q)) "#" 0 180].

Definition active_questions_of (db : DB) (scenario_id : Z) : list Question.t :=
  filter (fun q => eq_opt_Z (Question.scenario_id q) scenario_id
                   && Bool.eqb (Question.is_active q) true)
    (questions db).

Definition ending_guidances_of (db : DB) (scenario_id : Z) : list EndingGuidance.t :=
  order_by EndingGuidance.sort_order
    (filter (fun eg => eq_opt_Z (EndingGuidance.scenario_id eg) scenario_id)
       (ending_guidances db)).

Definition say_ending_guidances (egs : list EndingGuidance.t) : VoiceResponse :=
  flat_map (fun eg => [say_ja (EndingGuidance.text eg); Pause "1"]) egs.

Definition handle_incoming_call (To From CallSid : string) (rec : RecordingStart)
    (db : DB) : DB * list Job * HttpResponse :=
  let phone_entry := lookup_phone_entry db To in
  let call :=
    {| Call.call_sid := CallSid;
       Call.from_number := From;
       Call.to_number := To;
       Call.status := "in-progress";
       Call.scenario_id :=
         match phone_entry with
         | Some pe => PhoneNumber.scenario_id pe
         | None => None
         end;
       Call.recording_sid := started_sid rec |} in
  (* db.add(call); db.commit(): call_sid is the primary key *)
  if existsb (fun c => String.eqb (Call.call_sid c) CallSid) (calls db)
  then (db, [], ServerError (IntegrityError "calls.call_sid"))
  else
    let db1 := set_calls db (calls db ++ [call]) in
    match phone_entry with
    | None => (db1, [], Response [say_ja NOT_IN_SERVICE] "application/xml")
    | Some pe =>
        match phone_scenario db pe with
        | None =>
            (* phone_entry.scenario is None: .is_active raises *)
            (db1, [], ServerError (AttributeError "is_active"))
        | Some scenario =>
            if negb (Scenario.is_active scenario)
            then (db1, [], Response [say_ja NOT_IN_SERVICE] "application/xml")
            else
              let vr := greeting_and_guidance scenario in
              let first_question :=
                first (order_by Question.sort_order
                         (active_questions_of db (Scenario.id scenario))) in
              match first_question with
              | Some q =>
                  (db1, [],
                   Response (vr ++ ask_question (Scenario.id scenario) q)%list
                     "application/xml")
              | None =>
                  let egs := ending_guidances_of db (Scenario.id scenario) in
                  (db1, [],
                   Response
                     (vr ++ match egs with
                            | [] => [say_ja "終了します。"]
                            | _ => say_ending_guidances egs
                            end)%list
                     "application/xml")
              end
        end
    end.

(** ** handle_recording  (POST /twilio/record_callback) *)

(** [db.query(models.Question).get(q_curr)]: lookup by primary key, for a
    [q_curr] the store can bind.  What the route does with an integer
    outside the signed 64-bit range is [record_callback] below. *)
Definition get_question (db : DB) (q_curr : Z) : option Question.t :=
  first (filter (fun q => Question.id q =? q_curr) (questions db)).

Definition MESSAGE_PROMPT : string :=
  "担当者に伝えたいことがあればお話しください。終わったらシャープを押してください。".

Definition message_record_url (scenario_id : Z) : string :=
  "/twilio/message_record?scenario_id=" ++ str_int scenario_id.

(** Message-Prompt: invite a message, record with a 10 second silence
    timeout. *)
Definition message_prompt (scenario_id : Z) : VoiceResponse :=
  [say_ja MESSAGE_PROMPT;
   RecordVerb (message_record_url scenario_id) "#" 10 180].

(** The query for the next question: active rows of [scenario_id] whose
    sort_order is greater than the current one, in sort_order order. *)
Definition next_questions (db : DB) (scenario_id : Z) (current_q : Question.t)
    : list Question.t :=
  order_by Question.sort_order
    (filter (fun q => eq_opt_Z (Question.scenario_id q) scenario_id
                      && Bool.eqb (Question.is_active q) true
                      && (Question.sort_order current_q <? Question.sort_order q))
       (questions db)).

Definition handle_recording (scenario_id q_curr : Z)
    (CallSid RecordingUrl RecordingSid : string)
    (db : DB) : DB * list Job * HttpResponse :=
  let current_q := get_question db q_curr in
  (* 1. Save Answer *)
  let answer :=
    {| Answer.id := next_id (map Answer.id (answers db));
       Answer.call_sid := CallSid;
       Answer.question_id := Some q_curr;
       Answer.answer_type := "recording";
       Answer.recording_sid := Some RecordingSid;
       Answer.recording_url_twilio := Some RecordingUrl;
       Answer.storage_url := None;
       Answer.storage_status := "pending";
       Answer.transcript_text := None;
       Answer.transcript_status := "processing";
       Answer.question_sort_at_call :=
         match current_q with
         | Some q => Question.sort_order q
         | None => 0
         end |} in
  let db1 := set_answers db (answers db ++ [answer]) in
  (* 2. Transcribe (async) *)
  let tasks := [transcribe_with_whisper_task (Answer.id answer) RecordingUrl RecordingSid] in
  (* 3. Find Next Question *)
  match current_q with
  | None =>
      (db1, tasks, Response [say_ja "エラーが発生しました。"] "application/xml")
  | Some cq =>
      match first (next_questions db scenario_id cq) with
      | Some next_question =>
          (db1, tasks, Response (ask_question scenario_id next_question) "application/xml")
      | None =>
          (db1, tasks, Response (message_prompt scenario_id) "application/xml")
      end
  end.

(** *** The route for any integer query parameter

    [scenario_id] and [q_curr] reach the handler as Python ints of any
    size, while the store binds integers as signed 64-bit values: a query
    that binds an integer outside that range raises OverflowError.
    [handle_recording] above is the handler on identifiers the store can
    bind; [record_callback] is the route as it is served, with the two
    queries that bind a parameter raising where the source does: the
    lookup of the current question (before anything is stored) binds
    [q_curr], the query for the next question (after the Answer is stored
    and the task created) binds [scenario_id]. *)

Definition INT64_MIN : Z := - 2 ^ 63.
Definition INT64_MAX : Z := 2 ^ 63 - 1.

Definition in_int64 (z : Z) : bool := (INT64_MIN <=? z) && (z <=? INT64_MAX).

Definition OverflowError : Exception :=
  OtherError "OverflowError: Python int too large to convert to SQLite INTEGER".

Definition record_callback (scenario_id q_curr : Z)
    (CallSid RecordingUrl RecordingSid : string)
    (db : DB) : DB * list Job * HttpResponse :=
  (* current_q = db.query(models.Question).get(q_curr) *)
  if negb (in_int64 q_curr) then (db, [], ServerError OverflowError)
  else
    let current_q := get_question db q_curr in
    (* 1. Save Answer *)
    let answer :=
      {| Answer.id := next_id (map Answer.id (answers db));
         Answer.call_sid := CallSid;
         Answer.question_id := Some q_curr;
         Answer.answer_type := "recording";
         Answer.recording_sid := Some RecordingSid;
         Answer.recording_url_twilio := Some RecordingUrl;
         Answer.storage_url := None;
         Answer.storage_status := "pending";
         Answer.transcript_text := None;
         Answer.transcript_status := "processing";
         Answer.question_sort_at_call :=
           match current_q with
           | Some q => Question.sort_order q
           | None => 0
           end |} in
    let db1 := set_answers db (answers db ++ [answer]) in
    (* 2. Transcribe (async) *)
    let tasks :=
      [transcribe_with_whisper_task (Answer.id answer) RecordingUrl RecordingSid] in
    (* 3. Find Next Question *)
    match current_q with
    | None =>
        (db1, tasks, Response [say_ja "エラーが発生しました。"] "application/xml")
    | Some cq =>
        if negb (in_int64 scenario_id) then (db1, tasks, ServerError OverflowError)
        else
          match first (next_questions db scenario_id cq) with
          | Some next_question =>
              (db1, tasks,
               Response (ask_question scenario_id next_question) "application/xml")
          | None =>
              (db1, tasks, Response (message_prompt scenario_id) "application/xml")
          end
    end.

(** ** handle_message_recording  (POST /twilio/message_record) *)

Definition message_confirm_url (scenario_id : Z) : string :=
  "/twilio/message_confirm?scenario_id=" ++ str_int scenario_id.

Definition handle_message_recording (scenario_id : Z)
    (CallSid RecordingUrl RecordingSid : string)
    (db : DB) : DB * list Job * HttpResponse :=
  let msg :=
    {| Message.id := next_id (map Message.id (messages db));
       Message.call_sid := CallSid;
       Message.recording_sid := Some RecordingSid;
       Message.recording_url := Some RecordingUrl;
       Message.transcript_text := Some "(文字起こし中...)" |} in
  let db1 := set_messages db (messages db ++ [msg]) in
  let tasks :=
    [transcribe_message_with_whisper_task (Message.id msg) RecordingUrl RecordingSid] in
  (db1, tasks,
   Response
     [say_ja "録音を受け付けました。";
      Gather 1 (message_confirm_url scenario_id) 10
        [("他にお話しすることはありますか？ ある場合は、1を。終わる場合は、2、またはそのままお待ちください。",
          "ja-JP")];
      Redirect (message_confirm_url scenario_id ++ "&Digits=2")]
     "application/xml").

(** ** handle_message_confirm  (POST /twilio/message_confirm) *)

Definition handle_message_confirm (scenario_id : Z) (Digits : string)
    (db : DB) : DB * list Job * HttpResponse :=
  if String.eqb Digits "1"
  then (db, [], Response (message_prompt scenario_id) "application/xml")
  else
    let egs := ending_guidances_of db scenario_id in
    (db, [],
     Response
       (match egs with
        | [] => [say_ja "お問い合わせありがとうございました。"]
        | _ => say_ending_guidances egs
        end ++ [say_ja "失礼いたします。"; Hangup])%list
       "application/xml").

(** ** handle_transcription  (POST /twilio/transcription_callback) *)

Definition handle_transcription (TranscriptionText : option string)
    (RecordingSid : string) (db : DB) : DB * list Job * HttpResponse :=
  (db, [], PlainResponse "OK" "text/plain").

(** ** The outside world of one background job *)

Inductive outcome (A : Type) :=
| returns (a : A)
| raises (e : Exception).
Arguments returns {A} a.
Arguments raises {A} e.

Definition str_exc (e : Exception) : string :=
  match e with
  | AttributeError m | IntegrityError m | OtherError m => m
  end.

(** A [requests] response. *)
Record HttpReply := { status_code : Z; content : string }.

(** The verbose transcription object; [duration] and the elapsed time are
    the values after [int(...)]. *)
Record Transcription := { text : string; duration : Z }.

Record World := {
  OPENAI_API_KEY : option string;            (* os.getenv("OPENAI_API_KEY") *)
  requests_get : Z -> outcome HttpReply;     (* the download of attempt n *)
  write_temp_file : string -> outcome Z;     (* write the file; its size *)
  transcriptions_create : outcome Transcription;
  elapsed : Z;                               (* int(processing_time) *)
  commit : outcome unit;                     (* db.commit() of the write-back *)
  clean_up : outcome unit;                   (* db.close(), os.remove, print *)
  except_commit : outcome unit               (* db.commit() of the except block *)
}.

(** What a job does that the outside can observe, in order. *)
Inductive Event :=
| requested (attempt : Z)
| slept (seconds : Z).

(** [range(n)] *)
Definition range (n : Z) : list Z := map Z.of_nat (seq 0 (Z.to_nat n)).

(** How the download loop is left. *)
Inductive LoopExit :=
| loop_break (audio_response : HttpReply)
| loop_return
| loop_raise (e : Exception)
| loop_end (audio_response : option HttpReply).

(** The [for attempt in range(max_retries)] loop of
    [transcribe_with_whisper], over the attempts still to run. *)
Fixpoint download_loop (w : World) (max_retries : Z) (attempts : list Z)
    (retry_delay : Z) (audio_response : option HttpReply) : LoopExit * list Event :=
  match attempts with
  | [] => (loop_end audio_response, [])
  | attempt :: rest =>
      match requests_get w attempt with
      | raises e => (loop_raise e, [requested attempt])
      | returns r =>
          if status_code r =? 200 then (loop_break r, [requested attempt])
          else if attempt <? max_retries - 1 then
            let '(exit, trace) :=
              download_loop w max_retries rest (retry_delay * 2) (Some r) in
            (exit, requested attempt :: slept retry_delay :: trace)
          else (loop_return, [requested attempt])
      end
  end.

(** The loop of [transcribe_message_with_whisper]: it sleeps after every
    failed attempt and never returns from inside. *)
Fixpoint message_download_loop (w : World) (attempts : list Z)
    (retry_delay : Z) (audio_response : option HttpReply) : LoopExit * list Event :=
  match attempts with
  | [] => (loop_end audio_response, [])
  | attempt :: rest =>
      match requests_get w attempt with
      | raises e => (loop_raise e, [requested attempt])
      | returns r =>
          if status_code r =? 200 then (loop_break r, [requested attempt])
          else
            let '(exit, trace) :=
              message_download_loop w rest (retry_delay * 2) (Some r) in
            (exit, requested attempt :: slept retry_delay :: trace)
      end
  end.

(** ** transcribe_with_whisper *)

(** Rewrite the first row that satisfies [p]: the object a [.first()]
    query returned, mutated and committed. *)
Fixpoint update_first {A} (p : A -> bool) (f : A -> A) (rows : list A) : list A :=
  match rows with
  | [] => []
  | r :: rest => if p r then f r :: rest else r :: update_first p f rest
  end.

(** The "Phase 2" guard: the answer with this id and this recording. *)
Definition guard (answer_id : Z) (recording_sid : string) (a : Answer.t) : bool :=
  (Answer.id a =? answer_id) && eq_opt_string (Answer.recording_sid a) recording_sid.

Definition set_transcript (text : option string) (status : string) (a : Answer.t)
    : Answer.t :=
  {| Answer.id := Answer.id a;
     Answer.call_sid := Answer.call_sid a;
     Answer.question_id := Answer.question_id a;
     Answer.answer_type := Answer.answer_type a;
     Answer.recording_sid := Answer.recording_sid a;
     Answer.recording_url_twilio := Answer.recording_url_twilio a;
     Answer.storage_url := Answer.storage_url a;
     Answer.storage_status := Answer.storage_status a;
     Answer.transcript_text := text;
     Answer.transcript_status := status;
     Answer.question_sort_at_call := Answer.question_sort_at_call a |}.

Definition add_log (db : DB) (row : Z -> TranscriptionLog.t) : DB :=
  set_transcription_logs db
    (transcription_logs db
     ++ [row (next_id (map TranscriptionLog.id (transcription_logs db)))]).

(** A byte that continues a character of a UTF-8 string (10xxxxxx). *)
Definition is_continuation (c : ascii) : bool :=
  Nat.leb 128 (nat_of_ascii c) && Nat.ltb (nat_of_ascii c) 192.

(** [s[:n]]: the first [n] characters of a [str] held as UTF-8 bytes. *)
Fixpoint slice_chars (n : nat) (s : string) : string :=
  match s with
  | EmptyString => EmptyString
  | String c rest =>
      if is_continuation c then String c (slice_chars n rest)
      else
        match n with
        | O => EmptyString
        | S n' => String c (slice_chars n' rest)
        end
  end.

Definition success_log (answer_id : Z) (recording_sid : string) (audio_bytes : Z)
    (transcript : Transcription) (processing_time : Z) (id : Z) : TranscriptionLog.t :=
  {| TranscriptionLog.id := id;
     TranscriptionLog.answer_id := Some answer_id;
     TranscriptionLog.service := "openai_whisper";
     TranscriptionLog.status := "success";
     TranscriptionLog.audio_bytes := Some audio_bytes;
     TranscriptionLog.audio_duration := Some (duration transcript);
     TranscriptionLog.model_name := Some "whisper-1";
     TranscriptionLog.language := "ja";
     TranscriptionLog.request_payload := Some ("file=" ++ recording_sid ++ ".mp3");
     TranscriptionLog.response_payload :=
       Some (if String.eqb (text transcript) "" then ""
             else slice_chars 1000 (text transcript));
     TranscriptionLog.processing_time := processing_time |}.

Definition failure_log (answer_id : Z) (recording_sid : string)
    (audio_bytes : option Z) (e : Exception) (id : Z) : TranscriptionLog.t :=
  {| TranscriptionLog.id := id;
     TranscriptionLog.answer_id := Some answer_id;
     TranscriptionLog.service := "openai_whisper";
     TranscriptionLog.status := "failed";
     TranscriptionLog.audio_bytes :=
       Some (match audio_bytes with Some n => n | None => 0 end);
     TranscriptionLog.audio_duration := None;
     TranscriptionLog.model_name := Some "whisper-1";
     TranscriptionLog.language := "ja";
     TranscriptionLog.request_payload := Some ("file=" ++ recording_sid ++ ".mp3");
     TranscriptionLog.response_payload := Some (str_exc e);
     TranscriptionLog.processing_time := 0 |}.

(** The success branch of the write-back, committed. *)
Definition write_back (answer_id : Z) (recording_sid : string) (audio_bytes : Z)
    (transcript : Transcription) (processing_time : Z) (db : DB) : DB :=
  add_log
    (set_answers db
       (update_first (guard answer_id recording_sid)
          (set_transcript (Some (text transcript)) "completed")
          (answers db)))
    (success_log answer_id recording_sid audio_bytes transcript processing_time).

(** The [except Exception as e] block: a fresh session on what is
    committed; [audio_bytes] is set when the try block got that far.  The
    block's own commit is not guarded: when it raises, the exception
    leaves the task and nothing of the block is stored. *)
Definition except_block (answer_id : Z) (recording_sid : string) (w : World)
    (e : Exception) (audio_bytes : option Z) (db : DB) : DB :=
  match first (filter (guard answer_id recording_sid) (answers db)) with
  | Some answer =>
      match except_commit w with
      | returns _ =>
          add_log
            (set_answers db
               (update_first (guard answer_id recording_sid)
                  (fun a => set_transcript (Answer.transcript_text a) "failed" a)
                  (answers db)))
            (failure_log answer_id recording_sid audio_bytes e)
      | raises _ => db
      end
  | None => db
  end.

(** The try block from "Save temporarily" on. *)
Definition after_download (answer_id : Z) (recording_sid : string) (w : World)
    (audio_response : HttpReply) (db : DB) : DB :=
  match write_temp_file w (content audio_response) with
  | raises e => except_block answer_id recording_sid w e None db
  | returns audio_bytes =>
      match transcriptions_create w with
      | raises e => except_block answer_id recording_sid w e (Some audio_bytes) db
      | returns transcript =>
          match first (filter (guard answer_id recording_sid) (answers db)) with
          | Some answer =>
              match commit w with
              | raises e => except_block answer_id recording_sid w e (Some audio_bytes) db
              | returns _ =>
                  let db1 := write_back answer_id recording_sid audio_bytes
                               transcript (elapsed w) db in
                  match clean_up w with
                  | raises e =>
                      except_block answer_id recording_sid w e (Some audio_bytes) db1
                  | returns _ => db1
                  end
              end
          | None =>
              match clean_up w with
              | raises e => except_block answer_id recording_sid w e (Some audio_bytes) db
              | returns _ => db
              end
          end
      end
  end.

Definition transcribe_with_whisper (answer_id : Z) (recording_url recording_sid : string)
    (w : World) (db : DB) : DB * list Event :=
  match truthy (OPENAI_API_KEY w) with
  | None => (db, [])
  | Some _ =>
      let max_retries := 5 in
      let retry_delay := 2 in
      let '(exit, trace) :=
        download_loop w max_retries (range max_retries) retry_delay None in
      match exit with
      | loop_return => (db, trace)
      | loop_raise e => (except_block answer_id recording_sid w e None db, trace)
      | loop_break r | loop_end (Some r) =>
          (after_download answer_id recording_sid w r db, trace)
      | loop_end None =>
          (except_block answer_id recording_sid w (AttributeError "content") None db,
           trace)
      end
  end.

(** ** transcribe_message_with_whisper *)

Definition set_message_text (text : option string) (m : Message.t) : Message.t :=
  {| Message.id := Message.id m;
     Message.call_sid := Message.call_sid m;
     Message.recording_sid := Message.recording_sid m;
     Message.recording_url := Message.recording_url m;
     Message.transcript_text := text |}.

Definition transcribe_message_with_whisper (message_id : Z)
    (recording_url recording_sid : string) (w : World) (db : DB) : DB * list Event :=
  match truthy (OPENAI_API_KEY w) with
  | None => (db, [])
  | Some _ =>
      let max_retries := 5 in
      let retry_delay := 2 in
      let '(exit, trace) :=
        message_download_loop w (range max_retries) retry_delay None in
      match exit with
      | loop_return | loop_raise _ | loop_end None => (db, trace)
      | loop_break r | loop_end (Some r) =>
          if negb (status_code r =? 200) then (db, trace)
          else
            match write_temp_file w (content r) with
            | raises _ => (db, trace)
            | returns _ =>
                match transcriptions_create w with
                | raises _ => (db, trace)
                | returns transcript =>
                    match commit w with
                    | raises _ => (db, trace)
                    | returns _ =>
                        (set_messages db
                           (update_first (fun m => Message.id m =? message_id)
                              (set_message_text (Some (text transcript)))
                              (messages db)),
                         trace)
                    end
                end
            end
      end
  end.

(** ** Operations on the database

    Everything that writes to the database: the five callbacks, a run of
    each background job against some world, and an edit by the
    administration screens. *)

(** Modelled from the spec: the administrative CRUD for scenarios,
    questions, phone numbers and ending guidances is not part of this
    router; an edit replaces those four tables by new contents and leaves
    the call ledger (calls, answers, messages, transcription logs) as it
    is. *)
Definition admin_edit (ss : list Scenario.t) (egs : list EndingGuidance.t)
    (pns : list PhoneNumber.t) (qs : list Question.t) (db : DB) : DB :=
  {| scenarios := ss; ending_guidances := egs; phone_numbers := pns;
     questions := qs; calls := calls db; messages := messages db;
     answers := answers db; transcription_logs := transcription_logs db |}.

Inductive Op :=
| op_voice (To From CallSid : string) (rec : RecordingStart)
| op_record_callback (scenario_id q_curr : Z) (CallSid RecordingUrl RecordingSid : string)
| op_message_record (scenario_id : Z) (CallSid RecordingUrl RecordingSid : string)
| op_message_confirm (scenario_id : Z) (Digits : string)
| op_transcription_callback (TranscriptionText : option string) (RecordingSid : string)
| op_transcribe_answer (answer_id : Z) (recording_url recording_sid : string) (w : World)
| op_transcribe_message (message_id : Z) (recording_url recording_sid : string) (w : World)
| op_admin_edit (ss : list Scenario.t) (egs : list EndingGuidance.t)
    (pns : list PhoneNumber.t) (qs : list Question.t).

Definition exec (op : Op) (db : DB) : DB :=
  match op with
  | op_voice To From CallSid rec =>
      fst (fst (handle_incoming_call To From CallSid rec db))
  | op_record_callback scenario_id q_curr CallSid RecordingUrl RecordingSid =>
      fst (fst (handle_recording scenario_id q_curr CallSid RecordingUrl RecordingSid db))
  | op_message_record scenario_id CallSid RecordingUrl RecordingSid =>
      fst (fst (handle_message_recording scenario_id CallSid RecordingUrl RecordingSid db))
  | op_message_confirm scenario_id Digits =>
      fst (fst (handle_message_confirm scenario_id Digits db))
  | op_transcription_callback TranscriptionText RecordingSid =>
      fst (fst (handle_transcription TranscriptionText RecordingSid db))
  | op_transcribe_answer answer_id recording_url recording_sid w =>
      fst (transcribe_with_whisper answer_id recording_url recording_sid w db)
  | op_transcribe_message message_id recording_url recording_sid w =>
      fst (transcribe_message_with_whisper message_id recording_url recording_sid w db)
  | op_admin_edit ss egs pns qs => admin_edit ss egs pns qs db
  end.

(** A history: operations applied one after the other. *)
Definition run (ops : list Op) (db : DB) : DB :=
  fold_left (fun d op => exec op d) ops db.

(** The HTTP answer of a callback (None for the operations that are not
    callbacks). *)
Definition http_response (op : Op) (db : DB) : option HttpResponse :=
  match op with
  | op_voice To From CallSid rec =>
      Some (snd (handle_incoming_call To From CallSid rec db))
  | op_record_callback scenario_id q_curr CallSid RecordingUrl RecordingSid =>
      Some (snd (handle_recording scenario_id q_curr CallSid RecordingUrl RecordingSid db))
  | op_message_record scenario_id CallSid RecordingUrl RecordingSid =>
      Some (snd (handle_message_recording scenario_id CallSid RecordingUrl RecordingSid db))
  | op_message_confirm scenario_id Digits =>
      Some (snd (handle_message_confirm scenario_id Digits db))
  | op_transcription_callback TranscriptionText RecordingSid =>
      Some (snd (handle_transcription TranscriptionText RecordingSid db))
  | _ => None
  end.

(** ** Sample data used by the examples below *)

Definition empty_db : DB :=
  {| scenarios := []; ending_guidances := []; phone_numbers := [];
     questions := []; calls := []; messages := []; answers := [];
     transcription_logs := [] |}.

Definition survey : Scenario.t :=
  {| Scenario.id := 1; Scenario.name := "survey";
     Scenario.greeting_text := Some "hello";
     Scenario.disclaimer_text := None;
     Scenario.question_guidance_text := None;
     Scenario.is_active := true |}.

Definition question (id scenario_id sort_order : Z) (text : string) (active : bool)
    : Question.t :=
  {| Question.id := id; Question.scenario_id := Some scenario_id;
     Question.text := text; Question.sort_order := sort_order;
     Question.is_active := active |}.

Definition phone (number : string) (scenario_id : option Z) (active : bool)
    : PhoneNumber.t :=
  {| PhoneNumber.to_number := number; PhoneNumber.scenario_id := scenario_id;
     PhoneNumber.label := None; PhoneNumber.is_active := active |}.

Definition survey_db (pns : list PhoneNumber.t) (qs : list Question.t) : DB :=
  {| scenarios := [survey]; ending_guidances := []; phone_numbers := pns;
     questions := qs; calls := []; messages := []; answers := [];
     transcription_logs := [] |}.

(** A world in which every step of a job succeeds at once. *)
Definition good_world : World :=
  {| OPENAI_API_KEY := Some "sk";
     requests_get := fun _ => returns {| status_code := 200; content := "mp3" |};
     write_temp_file := fun _ => returns 3;
     transcriptions_create := returns {| text := "hai"; duration := 2 |};
     elapsed := 1;
     commit := returns tt;
     clean_up := returns tt;
     except_commit := returns tt |}.

(** A world in which the recording never becomes available. *)
Definition not_ready_world : World :=
  {| OPENAI_API_KEY := Some "sk";
     requests_get := fun _ => returns {| status_code := 404; content := "" |};
     write_temp_file := fun _ => returns 0;
     transcriptions_create := returns {| text := ""; duration := 0 |};
     elapsed := 0;
     commit := returns tt;
     clean_up := returns tt;
     except_commit := returns tt |}.

Definition sample_answer (id : Z) (sid : string) : Answer.t :=
  {| Answer.id := id; Answer.call_sid := "CA1"; Answer.question_id := Some 1;
     Answer.answer_type := "recording"; Answer.recording_sid := Some sid;
     Answer.recording_url_twilio := Some "http://rec";
     Answer.storage_url := None; Answer.storage_status := "pending";
     Answer.transcript_text := None; Answer.transcript_status := "processing";
     Answer.question_sort_at_call := 1 |}.

Definition answers_db (rows : list Answer.t) : DB :=
  {| scenarios := []; ending_guidances := []; phone_numbers := [];
     questions := []; calls := []; messages := []; answers := rows;
     transcription_logs := [] |}.

(** ** Vocabulary of the statements *)

Open Scope list_scope.

(** The running head of the sorted accumulator of [order_by]: a later row
    replaces it only with a strictly smaller key. *)
Definition keep_min {A} (key : A -> Z) (best : option A) (x : A) : option A :=
  match best with
  | None => Some x
  | Some h => if key h <=? key x then Some h else Some x
  end.

(** The scenario a dialed number resolves to. *)
Definition resolved_scenario_id (db : DB) (To : string) : option (option Z) :=
  option_map PhoneNumber.scenario_id (lookup_phone_entry db To).

Definition colliding_numbers_db : DB :=
  survey_db [phone "+1 234" (Some 1) true; phone "+1234" (Some 2) true] [].

(** [q] may follow [current_q] in the survey of [scenario_id]. *)
Definition eligible_next (scenario_id : Z) (current_q q : Question.t) : Prop :=
  Question.scenario_id q = Some scenario_id
  /\ Question.is_active q = true
  /\ Question.sort_order current_q < Question.sort_order q.

Definition active_in (scenario_id : Z) (q : Question.t) : Prop :=
  Question.scenario_id q = Some scenario_id /\ Question.is_active q = true.

(** The Call row is new: no row with this call identifier is stored yet
    (Call-Start is triggered once per call). *)
Definition fresh_call (db : DB) (CallSid : string) : Prop :=
  existsb (fun c => String.eqb (Call.call_sid c) CallSid) (calls db) = false.

(** What Call-Start says after the guidance when no question is asked. *)
Definition closing_without_questions (db : DB) (scenario_id : Z) : VoiceResponse :=
  let egs := ending_guidances_of db scenario_id in
  match egs with
  | [] => [say_ja "終了します。"]
  | _ => say_ending_guidances egs
  end.

(** What Call-Start says after the guidance. *)
Definition first_step (db : DB) (scenario_id : Z) : VoiceResponse :=
  match first (order_by Question.sort_order (active_questions_of db scenario_id)) with
  | Some q => ask_question scenario_id q
  | None => closing_without_questions db scenario_id
  end.

(** The same database with other [is_active] flags on its phone numbers. *)
Definition with_is_active (b : bool) (pn : PhoneNumber.t) : PhoneNumber.t :=
  {| PhoneNumber.to_number := PhoneNumber.to_number pn;
     PhoneNumber.scenario_id := PhoneNumber.scenario_id pn;
     PhoneNumber.label := PhoneNumber.label pn;
     PhoneNumber.is_active := b |}.

Definition reflag_phone_numbers (flag : PhoneNumber.t -> bool) (db : DB) : DB :=
  {| scenarios := scenarios db; ending_guidances := ending_guidances db;
     phone_numbers := map (fun pn => with_is_active (flag pn) pn) (phone_numbers db);
     questions := questions db; calls := calls db; messages := messages db;
     answers := answers db; transcription_logs := transcription_logs db |}.

(** [to_number] is the primary key of the phone_numbers table. *)
Definition phone_numbers_keyed (db : DB) : Prop :=
  NoDup (map PhoneNumber.to_number (phone_numbers db)).

(** A phone number whose scenario reference names no stored scenario, and
    one whose scenario reference is NULL. *)
Definition dangling_phone_db : DB :=
  survey_db [phone "+81312345678" (Some 99) true] [question 10 1 1 "q1" true].

Definition unassigned_phone_db : DB :=
  survey_db [phone "+81312345678" None true] [question 10 1 1 "q1" true].

(** The write-back guard finds a row: some stored Answer has this id and
    this recording identifier. *)
Definition guard_accepts (answer_id : Z) (recording_sid : string) (db : DB) : Prop :=
  exists a, In a (answers db) /\ Answer.id a = answer_id
            /\ Answer.recording_sid a = Some recording_sid.

(** [a'] is [a] up to transcript_text and transcript_status. *)
Definition same_but_transcript (a a' : Answer.t) : Prop :=
  Answer.id a' = Answer.id a
  /\ Answer.call_sid a' = Answer.call_sid a
  /\ Answer.question_id a' = Answer.question_id a
  /\ Answer.answer_type a' = Answer.answer_type a
  /\ Answer.recording_sid a' = Answer.recording_sid a
  /\ Answer.recording_url_twilio a' = Answer.recording_url_twilio a
  /\ Answer.storage_url a' = Answer.storage_url a
  /\ Answer.storage_status a' = Answer.storage_status a
  /\ Answer.question_sort_at_call a' = Answer.question_sort_at_call a.

(** [a'] is [a], or [a] is the row of the job (its id, its recording). *)
Definition untouched_or_guarded (answer_id : Z) (recording_sid : string)
    (a a' : Answer.t) : Prop :=
  a' = a
  \/ (Answer.id a = answer_id /\ Answer.recording_sid a = Some recording_sid).

(** Two answers, the second re-recorded under another recording id than
    the job below was launched with. *)
Definition two_answers_db : DB :=
  answers_db [sample_answer 1 "RE1"; sample_answer 2 "RE2"].

(** The trace of [n] failed downloads, each followed by its sleep: the
    delay starts at 2 seconds and doubles. *)
Definition backoff (n : nat) : list Event :=
  flat_map (fun i => [requested (Z.of_nat i); slept (2 * 2 ^ Z.of_nat i)]) (seq 0 n).

Definition attempts (trace : list Event) : list Z :=
  flat_map (fun ev => match ev with requested n => [n] | slept _ => [] end) trace.

Definition delays (trace : list Event) : list Z :=
  flat_map (fun ev => match ev with slept s => [s] | requested _ => [] end) trace.

(** Every one of the five downloads answers, with a status other than 200. *)
Definition never_ready (w : World) : Prop :=
  forall n, 0 <= n < 5 ->
    exists r, requests_get w n = returns r /\ status_code r <> 200.

(** The attempt wrote 'completed' and appended one 'success' row. *)
Definition outcome_completed (answer_id : Z) (recording_sid : string)
    (db db' : DB) : Prop :=
  exists row transcript_text,
    transcription_logs db' = transcription_logs db ++ [row]
    /\ TranscriptionLog.status row = "success"
    /\ TranscriptionLog.answer_id row = Some answer_id
    /\ answers db'
       = update_first (guard answer_id recording_sid)
           (set_transcript (Some transcript_text) "completed") (answers db).

(** The attempt wrote 'failed' and appended one 'failed' row. *)
Definition outcome_failed (answer_id : Z) (recording_sid : string)
    (db db' : DB) : Prop :=
  exists row,
    transcription_logs db' = transcription_logs db ++ [row]
    /\ TranscriptionLog.status row = "failed"
    /\ TranscriptionLog.answer_id row = Some answer_id
    /\ answers db'
       = update_first (guard answer_id recording_sid)
           (fun a => set_transcript (Answer.transcript_text a) "failed" a)
           (answers db).

(** One stored message, waiting for its transcript. *)
Definition one_message_db : DB :=
  {| scenarios := []; ending_guidances := []; phone_numbers := [];
     questions := []; calls := [];
     messages := [{| Message.id := 1; Message.call_sid := "CA1";
                     Message.recording_sid := Some "RE9";
                     Message.recording_url := Some "http://rec";
                     Message.transcript_text := Some "(文字起こし中...)" |}];
     answers := []; transcription_logs := [] |}.

(** The Whisper call fails after a successful download. *)
Definition whisper_down_world : World :=
  {| OPENAI_API_KEY := Some "sk";
     requests_get := fun _ => returns {| status_code := 200; content := "mp3" |};
     write_temp_file := fun _ => returns 3;
     transcriptions_create := raises (OtherError "503");
     elapsed := 0;
     commit := returns tt;
     clean_up := returns tt;
     except_commit := returns tt |}.

(** The answers table after one operation: the old rows in place, equal
    up to the transcript fields, then the new rows. *)
Definition answers_kept (db db' : DB) : Prop :=
  exists kept added,
    answers db' = kept ++ added
    /\ Forall2 same_but_transcript (answers db) kept.

(** A call in which question 10 (sort position 5) is answered, the
    question is then moved to sort position 9 by an edit, and the
    transcript arrives afterwards. *)
Definition answered_then_edited : list Op :=
  [op_record_callback 1 10 "CA1" "http://rec" "RE1";
   op_admin_edit [survey] [] [] [question 10 1 9 "q1" true];
   op_transcribe_answer 1 "http://rec" "RE1" good_world].

(** Everything succeeds, then the clean-up after the commit raises. *)
Definition clean_up_fails_world : World :=
  {| OPENAI_API_KEY := Some "sk";
     requests_get := fun _ => returns {| status_code := 200; content := "mp3" |};
     write_temp_file := fun _ => returns 3;
     transcriptions_create := returns {| text := "hai"; duration := 2 |};
     elapsed := 1;
     commit := returns tt;
     clean_up := raises (OtherError "os.remove");
     except_commit := returns tt |}.

(** One round of the loop, by cases on what the download answers. *)
Ltac loop_round w n :=
  cbn [download_loop];
  destruct (requests_get w n) as [?r|?e];
  [ destruct (status_code _ =? 200);
    [ | change (n <? 5 - 1) with true; cbv iota ]
  | ].

Ltac stops_after k :=
  try (destruct (download_loop _ _ _ _ _)); cbn [snd];
  exists k; split; [lia|reflexivity].

(** ** Vocabulary of the further properties *)

(** [c in s] *)
Fixpoint contains_char (c : ascii) (s : string) : bool :=
  match s with
  | EmptyString => false
  | String d rest => Ascii.eqb d c || contains_char c rest
  end.

(** The four [replace] calls of [normalize_phone]. *)
Definition strip_punctuation (number : string) : string :=
  replace_with_empty ")"%char
    (replace_with_empty "("%char
      (replace_with_empty "-"%char
        (replace_with_empty " "%char number))).

(** The recording answers 200 at attempt [k], after [k] answers with
    another status. *)
Definition ready_at (w : World) (k : nat) (r : HttpReply) : Prop :=
  (k < 5)%nat
  /\ (forall n, 0 <= n < Z.of_nat k ->
        exists r', requests_get w n = returns r' /\ status_code r' <> 200)
  /\ requests_get w (Z.of_nat k) = returns r
  /\ status_code r = 200.

(** The two assignments of the write-back, on the answers table. *)
Definition mark_completed (answer_id : Z) (recording_sid : string)
    (transcript : Transcription) (rows : list Answer.t) : list Answer.t :=
  update_first (guard answer_id recording_sid)
    (set_transcript (Some (text transcript)) "completed") rows.

Definition mark_failed (answer_id : Z) (recording_sid : string)
    (rows : list Answer.t) : list Answer.t :=
  update_first (guard answer_id recording_sid)
    (fun a => set_transcript (Answer.transcript_text a) "failed" a) rows.

(** The values of transcript_status. *)
Definition valid_status (a : Answer.t) : Prop :=
  Answer.transcript_status a = "pending"%string
  \/ Answer.transcript_status a = "processing"%string
  \/ Answer.transcript_status a = "completed"%string
  \/ Answer.transcript_status a = "failed"%string.

(** The primary keys of the call ledger are keys. *)
Definition ledger_keyed (db : DB) : Prop :=
  NoDup (map Call.call_sid (calls db))
  /\ NoDup (map Answer.id (answers db))
  /\ NoDup (map Message.id (messages db))
  /\ NoDup (map TranscriptionLog.id (transcription_logs db)).

Definition is_admin_edit (op : Op) : bool :=
  match op with op_admin_edit _ _ _ _ => true | _ => false end.

(** The trace of a message download in which no attempt succeeds: the
    loop sleeps after the last attempt too. *)
Definition never_ready_message_trace : list Event := backoff 5.

(** A world in which the recording is ready at the third attempt. *)
Definition ready_third_world : World :=
  {| OPENAI_API_KEY := Some "sk";
     requests_get := fun n =>
       if n <? 2 then returns {| status_code := 404; content := "" |}
       else returns {| status_code := 200; content := "mp3" |};
     write_temp_file := fun _ => returns 3;
     transcriptions_create := returns {| text := "hai"; duration := 2 |};
     elapsed := 1;
     commit := returns tt;
     clean_up := returns tt;
     except_commit := returns tt |}.

(** No API key configured. *)
Definition no_key_world : World :=
  {| OPENAI_API_KEY := Some "";
     requests_get := fun _ => returns {| status_code := 200; content := "mp3" |};
     write_temp_file := fun _ => returns 3;
     transcriptions_create := returns {| text := "hai"; duration := 2 |};
     elapsed := 1;
     commit := returns tt;
     clean_up := returns tt;
     except_commit := returns tt |}.

(** ** The relationship properties of app/models.py *)

(** [Call.scenario]: the scenario the foreign key names. *)
Definition call_scenario (db : DB) (c : Call.t) : option Scenario.t :=
  match Call.scenario_id c with
  | Some sid => first (filter (fun s => Scenario.id s =? sid) (scenarios db))
  | None => None
  end.

(** [Call.scenario_name] *)
Definition scenario_name (db : DB) (c : Call.t) : option string :=
  match call_scenario db c with
  | Some s => Some (Scenario.name s)
  | None => None
  end.



(** After a download that succeeded, a step of the try block raises
    before anything is committed; [audio_bytes] is what the except block
    then finds in the locals. *)
Definition raises_before_commit (w : World) (r : HttpReply) (e : Exception)
    (audio_bytes : option Z) : Prop :=
  (write_temp_file w (content r) = raises e /\ audio_bytes = None)
  \/ (exists n, write_temp_file w (content r) = returns n
                /\ audio_bytes = Some n
                /\ (transcriptions_create w = raises e
                    \/ (exists t, transcriptions_create w = returns t)
                       /\ commit w = raises e)).

(** Every step after the download returns. *)
Definition returns_after_download (w : World) (r : HttpReply) (audio_bytes : Z)
    (transcript : Transcription) : Prop :=
  write_temp_file w (content r) = returns audio_bytes
  /\ transcriptions_create w = returns transcript
  /\ commit w = returns tt
  /\ clean_up w = returns tt.

(** What one run of the answer job may do to one answer row. *)
Definition row_effect (w : World) (a a' : Answer.t) : Prop :=
  a' = a
  \/ a' = set_transcript (Answer.transcript_text a) "failed" a
  \/ exists t, transcriptions_create w = returns t
               /\ (a' = set_transcript (Some (text t)) "completed" a
                   \/ a' = set_transcript (Some (text t)) "failed" a).

Ltac use_attempt H n :=
  let r := fresh "r" in
  let Hg := fresh "Hg" in
  let Hs := fresh "Hs" in
  destruct (H n ltac:(simpl; lia)) as (r & Hg & Hs);
  apply Z.eqb_neq in Hs; rewrite Hg, Hs.

(** The database after the except block ran on [db] with the guard
    accepting. *)
Definition failed_db (answer_id : Z) (recording_sid : string)
    (audio_bytes : option Z) (e : Exception) (db : DB) : DB :=
  add_log (set_answers db (mark_failed answer_id recording_sid (answers db)))
    (failure_log answer_id recording_sid audio_bytes e).

(** The survey definition: the tables the administration screens edit. *)
Definition survey_tables (db : DB)
    : list Scenario.t * list EndingGuidance.t * list PhoneNumber.t * list Question.t :=
  (scenarios db, ending_guidances db, phone_numbers db, questions db).

(** A history without edits by the administration screens. *)
Definition no_admin_edit (ops : list Op) : Prop :=
  forallb (fun op => negb (is_admin_edit op)) ops = true.



(** The question id in the action URL of the Record-Received response for
    [q_curr]: the position of the next Record-Received callback of the
    call; None when the response asks no further question. *)
Definition next_position (db : DB) (scenario_id q_curr : Z) : option Z :=
  match get_question db q_curr with
  | Some current_q =>
      option_map Question.id (first (next_questions db scenario_id current_q))
  | None => None
  end.

(** The positions of the Record-Received callbacks that follow the one for
    [q_curr] when the platform posts each recording to the action URL it
    was given, at most [fuel] of them. *)
Fixpoint follow (fuel : nat) (db : DB) (scenario_id q_curr : Z) : list Z :=
  match fuel with
  | O => []
  | S fuel' =>
      match next_position db scenario_id q_curr with
      | Some q_next => q_next :: follow fuel' db scenario_id q_next
      | None => []
      end
  end.



(** What a run of the answer job in world [w] does to the answers table,
    read off the branches of [transcribe_with_whisper]: which assignments
    are committed depends on the world only, and each assignment goes
    through the guard. *)
Definition job_transform (answer_id : Z) (recording_sid : string) (w : World)
    (rows : list Answer.t) : list Answer.t :=
  let failed (rows' : list Answer.t) :=
    match except_commit w with
    | returns _ => mark_failed answer_id recording_sid rows'
    | raises _ => rows'
    end in
  let after (r : HttpReply) :=
    match write_temp_file w (content r) with
    | raises _ => failed rows
    | returns _ =>
        match transcriptions_create w with
        | raises _ => failed rows
        | returns transcript =>
            match commit w with
            | raises _ => failed rows
            | returns _ =>
                match clean_up w with
                | raises _ =>
                    failed (mark_completed answer_id recording_sid transcript rows)
                | returns _ => mark_completed answer_id recording_sid transcript rows
                end
            end
        end
    end in
  match truthy (OPENAI_API_KEY w) with
  | None => rows
  | Some _ =>
      match fst (download_loop w 5 (range 5) 2 None) with
      | loop_return => rows
      | loop_raise _ | loop_end None => failed rows
      | loop_break r | loop_end (Some r) => after r
      end
  end.

(** Questions of two scenarios: 10 and 30 belong to scenario 1, 20 to
    scenario 2. *)
Definition two_scenarios_db : DB :=
  survey_db [] [question 10 1 1 "q1" true; question 30 1 3 "q3" true;
                question 20 2 5 "other" true].

(** [s] repeated [n] times. *)
Fixpoint repeat_string (n : nat) (s : string) : string :=
  match n with
  | O => EmptyString
  | S n' => (s ++ repeat_string n' s)%string
  end.

(** [len(s)]: the number of characters of a [str] held as UTF-8 bytes. *)
Fixpoint char_count (s : string) : nat :=
  match s with
  | EmptyString => O
  | String c rest =>
      if is_continuation c then char_count rest else S (char_count rest)
  end.

(** * Properties *)

(** ** Queries: what [order_by ... first] returns *)

Section OrderBy.
Context {A : Type} (key : A -> Z).

Lemma first_insert_by x sorted :
  first (insert_by key x sorted) = keep_min key (first sorted) x.
Proof.
  destruct sorted as [|y rest]; simpl; [reflexivity|].
  destruct (key y <=? key x); reflexivity.
Qed.

Lemma first_fold_insert rows : forall acc,
  first (fold_left (fun sorted x => insert_by key x sorted) rows acc)
  = fold_left (keep_min key) rows (first acc).
Proof.
  induction rows as [|x rows IH]; intros acc; simpl; [reflexivity|].
  rewrite IH, first_insert_by. reflexivity.
Qed.

Lemma first_order_by rows :
  first (order_by key rows) = fold_left (keep_min key) rows None.
Proof. unfold order_by. rewrite first_fold_insert. reflexivity. Qed.

Lemma keep_min_from_some rows : forall h x,
  fold_left (keep_min key) rows (Some h) = Some x ->
  (x = h /\ forall y, In y rows -> key h <= key y)
  \/ (exists before after,
        rows = before ++ x :: after
        /\ key x < key h
        /\ (forall y, In y before -> key x < key y)
        /\ (forall y, In y after -> key x <= key y)).
Proof.
  induction rows as [|r rows IH]; intros h x H; simpl in H.
  - left. split; [congruence|]. intros y [].
  - destruct (Z.leb_spec (key h) (key r)) as [Hle|Hlt].
    + destruct (IH _ _ H) as [[-> Hall]|(before & after & -> & Hx & Hb & Ha)].
      * left. split; [reflexivity|]. intros y [<-|Hy]; auto.
      * right. exists (r :: before), after. repeat split; auto.
        intros y [<-|Hy]; [lia|auto].
    + destruct (IH _ _ H) as [[-> Hall]|(before & after & -> & Hx & Hb & Ha)].
      * right. exists [], rows. repeat split; auto. intros y [].
      * right. exists (r :: before), after. repeat split; auto; [lia|].
        intros y [<-|Hy]; [lia|auto].
Qed.

(** The first row in sort order is a row with the least key, and the
    earliest stored among those. *)
Lemma first_order_by_some rows x :
  first (order_by key rows) = Some x ->
  exists before after,
    rows = before ++ x :: after
    /\ (forall y, In y before -> key x < key y)
    /\ (forall y, In y after -> key x <= key y).
Proof.
  rewrite first_order_by.
  destruct rows as [|r rows]; simpl; [discriminate|].
  intros H. destruct (keep_min_from_some _ _ _ H)
    as [[-> Hall]|(before & after & -> & Hx & Hb & Ha)].
  - exists [], rows. repeat split; auto. intros y [].
  - exists (r :: before), after. repeat split; auto.
    intros y [<-|Hy]; auto.
Qed.

Lemma keep_min_is_some rows : forall h,
  exists x, fold_left (keep_min key) rows (Some h) = Some x.
Proof.
  induction rows as [|r rows IH]; intros h; simpl; [eauto|].
  destruct (key h <=? key r); apply IH.
Qed.

Lemma first_order_by_none rows :
  first (order_by key rows) = None <-> rows = [].
Proof.
  rewrite first_order_by. split.
  - destruct rows as [|r rows]; [reflexivity|]. simpl. intros H.
    destruct (keep_min_is_some rows r) as [x Hx]. congruence.
  - intros ->. reflexivity.
Qed.

Lemma first_order_by_least rows x :
  first (order_by key rows) = Some x ->
  In x rows /\ forall y, In y rows -> key x <= key y.
Proof.
  intros H. destruct (first_order_by_some _ _ H) as (b & a & -> & Hb & Ha).
  split; [apply in_elt|].
  intros y Hy. apply in_app_or in Hy. destruct Hy as [Hy|[<-|Hy]].
  - specialize (Hb _ Hy). lia.
  - lia.
  - auto.
Qed.

Lemma insert_by_nonempty x sorted : insert_by key x sorted <> [].
Proof.
  destruct sorted as [|y r]; simpl; [discriminate|].
  destruct (key y <=? key x); discriminate.
Qed.

Lemma order_by_nil_iff rows : order_by key rows = [] <-> rows = [].
Proof.
  split; [|intros ->; reflexivity].
  intros H. apply first_order_by_none. rewrite H. reflexivity.
Qed.

End OrderBy.

(** [.first()] of a filter is [find]. *)
Lemma first_filter {A} (p : A -> bool) rows : first (filter p rows) = find p rows.
Proof.
  induction rows as [|r rows IH]; simpl; [reflexivity|].
  destruct (p r); [reflexivity|exact IH].
Qed.

Lemma find_none_iff {A} (p : A -> bool) rows :
  find p rows = None <-> forall x, In x rows -> p x = false.
Proof.
  split; [apply find_none|].
  induction rows as [|r rows IH]; intros H; simpl; [reflexivity|].
  rewrite (H r (or_introl eq_refl)). apply IH. intros x Hx. apply H. now right.
Qed.

(** An id handed out by the store is above every id in use. *)
Lemma next_id_bound ids x : In x ids -> x < next_id ids.
Proof.
  unfold next_id. induction ids as [|y ids IH]; intros Hin; [destruct Hin|].
  simpl. destruct Hin as [->|Hin]; [lia|]. specialize (IH Hin). lia.
Qed.

Lemma next_id_fresh ids : ~ In (next_id ids) ids.
Proof. intros Hin. apply next_id_bound in Hin. lia. Qed.

(** ** Phone Resolver *)

Example normalize_phone_spaced :
  normalize_phone "03 (1234)-5678" = "+0312345678"%string.
Proof. reflexivity. Qed.

Example normalize_phone_canonical :
  normalize_phone "+81312345678" = "+81312345678"%string.
Proof. reflexivity. Qed.

(** The exact match wins; the normalised scan is the fallback. *)
Lemma lookup_phone_entry_exact db To pe :
  find (fun pn => String.eqb (PhoneNumber.to_number pn) To) (phone_numbers db) = Some pe ->
  lookup_phone_entry db To = Some pe.
Proof. intros H. unfold lookup_phone_entry. rewrite first_filter, H. reflexivity. Qed.

Lemma lookup_phone_entry_scan db To :
  find (fun pn => String.eqb (PhoneNumber.to_number pn) To) (phone_numbers db) = None ->
  lookup_phone_entry db To
  = find (fun pn => String.eqb (normalize_phone (PhoneNumber.to_number pn))
                      (normalize_phone To))
      (phone_numbers db).
Proof. intros H. unfold lookup_phone_entry. rewrite first_filter, H. reflexivity. Qed.

(** Whatever row answers a dialed number, it is a stored row whose
    normalised number is the normalised dialed number; and some row
    answers as soon as one stored number normalises to it. *)
Lemma lookup_phone_entry_class db To pe :
  lookup_phone_entry db To = Some pe ->
  In pe (phone_numbers db)
  /\ normalize_phone (PhoneNumber.to_number pe) = normalize_phone To.
Proof.
  unfold lookup_phone_entry. rewrite first_filter.
  destruct (find _ (phone_numbers db)) as [exact|] eqn:Hexact.
  - intros [= ->]. apply find_some in Hexact. destruct Hexact as [Hin Heq].
    apply String.eqb_eq in Heq. split; [exact Hin|]. now rewrite Heq.
  - intros Hscan. apply find_some in Hscan. destruct Hscan as [Hin Heq].
    apply String.eqb_eq in Heq. auto.
Qed.

Lemma lookup_phone_entry_found db To pn :
  In pn (phone_numbers db) ->
  normalize_phone To = normalize_phone (PhoneNumber.to_number pn) ->
  exists pe, lookup_phone_entry db To = Some pe.
Proof.
  intros Hin Hnorm.
  destruct (lookup_phone_entry db To) as [pe|] eqn:Hlook; [eauto|].
  exfalso. unfold lookup_phone_entry in Hlook. rewrite first_filter in Hlook.
  destruct (find _ (phone_numbers db)) eqn:Hexact; [discriminate|].
  rewrite find_none_iff in Hlook. specialize (Hlook _ Hin).
  rewrite Hnorm, String.eqb_refl in Hlook. discriminate.
Qed.

(** C6, as stated, fails: with the rows "+1 234" (scenario 1) and "+1234"
    (scenario 2) stored in this order, dialing "+1-234" equals the stored
    "+1234" up to punctuation, yet it resolves to scenario 1 (the first row
    of the scan) while dialing "+1234" itself resolves to scenario 2. *)
Lemma lookup_phone_entry_collision :
  In (phone "+1234" (Some 2) true) (phone_numbers colliding_numbers_db)
  /\ normalize_phone "+1-234" = normalize_phone "+1234"
  /\ resolved_scenario_id colliding_numbers_db "+1-234" = Some (Some 1)
  /\ resolved_scenario_id colliding_numbers_db "+1234" = Some (Some 2)
  /\ resolved_scenario_id colliding_numbers_db "+1-234"
     <> resolved_scenario_id colliding_numbers_db "+1234".
Proof. repeat split; simpl; auto. discriminate. Qed.

(** C6 (amended): for a stored PhoneNumber row such that every stored row
    with the same normalised number references the same Scenario, a dialed
    number whose normalisation (spaces, hyphens and parentheses stripped, a
    leading '+' ensured) equals that of the stored number resolves, and
    resolves to the same Scenario as dialing the stored form. *)
Theorem lookup_phone_entry_modulo_punctuation db pn To :
  In pn (phone_numbers db) ->
  normalize_phone To = normalize_phone (PhoneNumber.to_number pn) ->
  (forall pn', In pn' (phone_numbers db) ->
     normalize_phone (PhoneNumber.to_number pn')
     = normalize_phone (PhoneNumber.to_number pn) ->
     PhoneNumber.scenario_id pn' = PhoneNumber.scenario_id pn) ->
  resolved_scenario_id db To = Some (PhoneNumber.scenario_id pn)
  /\ resolved_scenario_id db (PhoneNumber.to_number pn)
     = Some (PhoneNumber.scenario_id pn).
Proof.
  intros Hin Hnorm Hsame.
  assert (Hone : forall dialed,
    normalize_phone dialed = normalize_phone (PhoneNumber.to_number pn) ->
    resolved_scenario_id db dialed = Some (PhoneNumber.scenario_id pn)).
  { intros dialed Hd. unfold resolved_scenario_id.
    destruct (lookup_phone_entry_found db dialed pn Hin Hd) as [pe Hpe].
    rewrite Hpe. simpl. f_equal.
    apply lookup_phone_entry_class in Hpe. destruct Hpe as [Hpin Hpn].
    apply Hsame; [exact Hpin|congruence]. }
  split; [apply Hone; exact Hnorm|apply Hone; reflexivity].
Qed.

Lemma lookup_phone_entry_modulo_punctuation_witness :
  resolved_scenario_id
    (survey_db [phone "+81 3-1234" (Some 1) true; phone "+1234" (Some 2) true] [])
    "81(3)1234" = Some (Some 1)
  /\ resolved_scenario_id
       (survey_db [phone "+81 3-1234" (Some 1) true; phone "+1234" (Some 2) true] [])
       "+81 3-1234" = Some (Some 1).
Proof.
  apply (lookup_phone_entry_modulo_punctuation
           (survey_db [phone "+81 3-1234" (Some 1) true; phone "+1234" (Some 2) true] [])
           (phone "+81 3-1234" (Some 1) true) "81(3)1234").
  - simpl. auto.
  - reflexivity.
  - intros pn' [<-|[<-|[]]]; [reflexivity|].
    vm_compute. intros H. discriminate H.
Defined.

(** ** Call-Flow Engine: Record-Received *)

Lemma eq_opt_Z_true col v : eq_opt_Z col v = true <-> col = Some v.
Proof.
  destruct col as [x|]; simpl.
  - rewrite Z.eqb_eq. split; congruence.
  - split; discriminate.
Qed.

Lemma eqb_true_r b : Bool.eqb b true = true <-> b = true.
Proof. destruct b; simpl; split; congruence. Qed.

Lemma next_filter_eligible scenario_id cq q :
  eq_opt_Z (Question.scenario_id q) scenario_id
  && Bool.eqb (Question.is_active q) true
  && (Question.sort_order cq <? Question.sort_order q) = true
  <-> eligible_next scenario_id cq q.
Proof.
  unfold eligible_next.
  rewrite !andb_true_iff, eq_opt_Z_true, eqb_true_r, Z.ltb_lt. tauto.
Qed.

Lemma active_filter_active_in scenario_id q :
  eq_opt_Z (Question.scenario_id q) scenario_id
  && Bool.eqb (Question.is_active q) true = true
  <-> active_in scenario_id q.
Proof.
  unfold active_in. rewrite andb_true_iff, eq_opt_Z_true, eqb_true_r. tauto.
Qed.

Example record_received_asks_next :
  snd (handle_recording 1 10 "CA1" "http://rec" "RE1"
         (survey_db [] [question 10 1 1 "q1" true; question 30 1 7 "q3" true;
                        question 20 1 4 "q2" true; question 40 1 2 "off" false]))
  = Response (ask_question 1 (question 20 1 4 "q2" true)) "application/xml".
Proof. reflexivity. Qed.

Example record_received_last_prompts_message :
  snd (handle_recording 1 30 "CA1" "http://rec" "RE3"
         (survey_db [] [question 10 1 1 "q1" true; question 30 1 7 "q3" true;
                        question 20 1 4 "q2" true; question 40 1 9 "off" false]))
  = Response (message_prompt 1) "application/xml".
Proof. reflexivity. Qed.

(** On identifiers the store can bind, the route is the handler. *)
Lemma record_callback_in_range scenario_id q_curr CallSid RecordingUrl RecordingSid db :
  in_int64 q_curr = true -> in_int64 scenario_id = true ->
  record_callback scenario_id q_curr CallSid RecordingUrl RecordingSid db
  = handle_recording scenario_id q_curr CallSid RecordingUrl RecordingSid db.
Proof.
  intros Hq Hs. unfold record_callback, handle_recording. rewrite Hq, Hs.
  cbn [negb]. destruct (get_question db q_curr); reflexivity.
Qed.

(** C4, as stated, fails.  The scenario of the next question is the one
    named in the callback, not the one of the current question: a callback
    for question 10 (scenario 1) that names scenario 2 is answered with
    question 20 of scenario 2, although question 30 of scenario 1 is
    active and follows question 10.  And a scenario identifier the store
    cannot bind makes the query for the next question raise: the answer is
    a server error, neither Ask-Question nor Message-Prompt. *)
Lemma record_callback_other_scenario :
  get_question two_scenarios_db 10 = Some (question 10 1 1 "q1" true)
  /\ snd (record_callback 2 10 "CA1" "http://rec" "RE1" two_scenarios_db)
     = Response [Say "other" "ja-JP";
                 RecordVerb "/twilio/record_callback?scenario_id=2&q_curr=20" "#" 0 180]
         "application/xml"
  /\ Question.scenario_id (question 20 2 5 "other" true)
     <> Question.scenario_id (question 10 1 1 "q1" true)
  /\ In (question 30 1 3 "q3" true) (questions two_scenarios_db)
  /\ snd (record_callback (2 ^ 63) 10 "CA1" "http://rec" "RE1" two_scenarios_db)
     = ServerError OverflowError.
Proof.
  split; [reflexivity|]. split; [reflexivity|]. split; [discriminate|].
  split; [simpl; auto|reflexivity].
Qed.

(** C4 (amended): for a Record-Received callback whose identifiers the
    store can bind (signed 64-bit) and whose current question resolves,
    the response either speaks the text of, and records the answer to, a
    question that is active, belongs to the scenario named in the
    callback, has a sort position strictly greater than the current
    question's and the smallest such position, posting to the record
    callback for that question; or, when no such question exists, it is the
    Message-Prompt markup, whose recording posts to the message callback
    and not to the record callback. *)
Theorem handle_recording_next_question
    scenario_id q_curr CallSid RecordingUrl RecordingSid db current_q :
  in_int64 q_curr = true ->
  in_int64 scenario_id = true ->
  get_question db q_curr = Some current_q ->
  let response :=
    snd (record_callback scenario_id q_curr CallSid RecordingUrl RecordingSid db) in
  (exists next_question,
      In next_question (questions db)
      /\ Question.scenario_id next_question = Some scenario_id
      /\ Question.is_active next_question = true
      /\ Question.sort_order current_q < Question.sort_order next_question
      /\ (forall q, In q (questions db) ->
            Question.scenario_id q = Some scenario_id ->
            Question.is_active q = true ->
            Question.sort_order current_q < Question.sort_order q ->
            Question.sort_order next_question <= Question.sort_order q)
      /\ response
         = Response
             [Say (Question.text next_question) "ja-JP";
              RecordVerb
                ("/twilio/record_callback?scenario_id=" ++ str_int scenario_id
                 ++ "&q_curr=" ++ str_int (Question.id next_question))%string
                "#" 0 180]
             "application/xml")
  \/ ((forall q, In q (questions db) ->
          Question.scenario_id q = Some scenario_id ->
          Question.is_active q = true ->
          Question.sort_order q <= Question.sort_order current_q)
      /\ response
         = Response
             [Say "担当者に伝えたいことがあればお話しください。終わったらシャープを押してください。"
                "ja-JP";
              RecordVerb
                ("/twilio/message_record?scenario_id=" ++ str_int scenario_id)%string
                "#" 10 180]
             "application/xml").
Proof.
  intros Hq Hs Hcur response. subst response.
  rewrite record_callback_in_range by assumption.
  unfold handle_recording. rewrite Hcur. cbv zeta.
  destruct (first (next_questions db scenario_id current_q)) as [nq|] eqn:Hnext;
    cbn [snd].
  - left. exists nq. unfold next_questions in Hnext.
    pose proof (first_order_by_least _ _ _ Hnext) as [Hin Hleast].
    apply filter_In in Hin. destruct Hin as [Hin Hel].
    apply next_filter_eligible in Hel. destruct Hel as (Hsc & Hact & Hlt).
    repeat (split; [assumption|]). split; [|reflexivity].
    intros q Hq' Hqs Hqa Hql. apply Hleast. apply filter_In. split; [exact Hq'|].
    apply next_filter_eligible. repeat split; assumption.
  - right. split; [|reflexivity].
    unfold next_questions in Hnext. apply first_order_by_none in Hnext.
    intros q Hq' Hqs Hqa.
    destruct (Z.le_gt_cases (Question.sort_order q) (Question.sort_order current_q))
      as [Hle|Hgt]; [exact Hle|exfalso].
    assert (Hf : In q (filter (fun q =>
               eq_opt_Z (Question.scenario_id q) scenario_id
               && Bool.eqb (Question.is_active q) true
               && (Question.sort_order current_q <? Question.sort_order q))
               (questions db))).
    { apply filter_In. split; [exact Hq'|]. apply next_filter_eligible.
      repeat split; [assumption|assumption|lia]. }
    rewrite Hnext in Hf. destruct Hf.
Qed.

Lemma handle_recording_next_question_witness :
  exists next_question,
    In next_question [question 10 1 1 "q1" true; question 20 1 4 "q2" true]
    /\ snd (record_callback 1 10 "CA1" "http://rec" "RE1"
              (survey_db [] [question 10 1 1 "q1" true; question 20 1 4 "q2" true]))
       = Response
           [Say (Question.text next_question) "ja-JP";
            RecordVerb
              ("/twilio/record_callback?scenario_id=" ++ str_int 1
               ++ "&q_curr=" ++ str_int (Question.id next_question))%string
              "#" 0 180]
           "application/xml".
Proof.
  destruct (handle_recording_next_question 1 10 "CA1" "http://rec" "RE1"
              (survey_db [] [question 10 1 1 "q1" true; question 20 1 4 "q2" true])
              (question 10 1 1 "q1" true) eq_refl eq_refl eq_refl)
    as [(nq & Hin & _ & _ & _ & _ & Hresp)|[Hnone _]].
  - exists nq. split; assumption.
  - exfalso.
    specialize (Hnone (question 20 1 4 "q2" true)
                  (or_intror (or_introl eq_refl)) eq_refl eq_refl).
    simpl in Hnone. lia.
Defined.

(** ** Call-Flow Engine: Call-Start *)

(** The markup of Call-Start for a number that resolves to an active
    scenario, on a new call. *)
Lemma handle_incoming_call_active To From CallSid rec db pe scenario :
  fresh_call db CallSid ->
  lookup_phone_entry db To = Some pe ->
  phone_scenario db pe = Some scenario ->
  Scenario.is_active scenario = true ->
  snd (handle_incoming_call To From CallSid rec db)
  = Response (greeting_and_guidance scenario ++ first_step db (Scenario.id scenario))
      "application/xml".
Proof.
  unfold fresh_call, handle_incoming_call, first_step, closing_without_questions.
  intros -> -> -> ->. cbv zeta. simpl negb. cbv iota.
  destruct (first _) as [q|]; cbn [snd]; reflexivity.
Qed.

Lemma no_record_app (a b : VoiceResponse) :
  existsb is_record (a ++ b) = existsb is_record a || existsb is_record b.
Proof. apply existsb_app. Qed.

Lemma greeting_and_guidance_no_record scenario :
  existsb is_record (greeting_and_guidance scenario) = false.
Proof.
  unfold greeting_and_guidance, say_if.
  destruct (truthy (Scenario.greeting_text scenario));
    destruct (truthy (Scenario.disclaimer_text scenario)); reflexivity.
Qed.

Lemma say_ending_guidances_no_record egs :
  existsb is_record (say_ending_guidances egs) = false.
Proof. induction egs as [|eg egs IH]; simpl; [reflexivity|exact IH]. Qed.

Lemma closing_without_questions_no_record db scenario_id :
  existsb is_record (closing_without_questions db scenario_id) = false.
Proof.
  unfold closing_without_questions. cbv zeta.
  destruct (ending_guidances_of db scenario_id) eqn:E; [reflexivity|].
  apply say_ending_guidances_no_record.
Qed.

Lemma active_questions_of_nil db scenario_id :
  (forall q, In q (questions db) -> ~ active_in scenario_id q) ->
  active_questions_of db scenario_id = [].
Proof.
  intros Hnone. unfold active_questions_of.
  destruct (filter _ (questions db)) as [|q rest] eqn:Hf; [reflexivity|].
  exfalso. assert (Hin : In q (filter (fun q =>
      eq_opt_Z (Question.scenario_id q) scenario_id
      && Bool.eqb (Question.is_active q) true) (questions db))).
  { rewrite Hf. now left. }
  apply filter_In in Hin. destruct Hin as [Hin Hact].
  apply (Hnone q Hin). now apply active_filter_active_in.
Qed.

Example call_start_no_questions :
  snd (handle_incoming_call "+81312345678" "+819000000000" "CA1" credentials_unset
         (survey_db [phone "+81312345678" (Some 1) true]
            [question 10 1 1 "q1" false; question 11 2 1 "other" true]))
  = Response [say_ja "hello"; say_ja DEFAULT_GUIDANCE; Pause "1.5";
              say_ja "終了します。"] "application/xml".
Proof. reflexivity. Qed.

(** C5: on a new call to a number that resolves to an active Scenario with
    no active question, the Call-Start markup is the greeting and guidance
    followed by the ending statements (or the fixed closing line); it
    contains no recording instruction, hence no Ask-Question step. *)
Theorem call_start_without_active_questions To From CallSid rec db pe scenario :
  fresh_call db CallSid ->
  lookup_phone_entry db To = Some pe ->
  phone_scenario db pe = Some scenario ->
  Scenario.is_active scenario = true ->
  (forall q, In q (questions db) -> ~ active_in (Scenario.id scenario) q) ->
  exists vr,
    snd (handle_incoming_call To From CallSid rec db) = Response vr "application/xml"
    /\ vr = greeting_and_guidance scenario
            ++ closing_without_questions db (Scenario.id scenario)
    /\ existsb is_record vr = false
    /\ forall q, In q (questions db) ->
         vr <> greeting_and_guidance scenario ++ ask_question (Scenario.id scenario) q.
Proof.
  intros Hfresh Hlook Hscen Hact Hnone.
  exists (greeting_and_guidance scenario
          ++ closing_without_questions db (Scenario.id scenario)).
  assert (Hrec : existsb is_record
                   (greeting_and_guidance scenario
                    ++ closing_without_questions db (Scenario.id scenario)) = false).
  { rewrite no_record_app, greeting_and_guidance_no_record,
      closing_without_questions_no_record. reflexivity. }
  split; [|split; [reflexivity|split; [exact Hrec|]]].
  - rewrite (handle_incoming_call_active _ _ _ _ _ _ _ Hfresh Hlook Hscen Hact).
    unfold first_step. rewrite (active_questions_of_nil _ _ Hnone). reflexivity.
  - intros q _ Heq. rewrite Heq in Hrec.
    rewrite no_record_app, greeting_and_guidance_no_record in Hrec.
    discriminate Hrec.
Qed.

Lemma call_start_without_active_questions_witness :
  exists vr,
    snd (handle_incoming_call "+81312345678" "+819000000000" "CA1" credentials_unset
           (survey_db [phone "+81312345678" (Some 1) true]
              [question 10 1 1 "q1" false]))
    = Response vr "application/xml"
    /\ existsb is_record vr = false.
Proof.
  destruct (call_start_without_active_questions
              "+81312345678" "+819000000000" "CA1" credentials_unset
              (survey_db [phone "+81312345678" (Some 1) true]
                 [question 10 1 1 "q1" false])
              (phone "+81312345678" (Some 1) true) survey
              eq_refl eq_refl eq_refl eq_refl)
    as (vr & Hresp & _ & Hrec & _).
  - intros q [<-|[]] [_ Hactive]. discriminate Hactive.
  - exists vr. split; assumption.
Defined.

Lemma find_map {A B} (p : B -> bool) (g : A -> B) rows :
  find p (map g rows) = option_map g (find (fun x => p (g x)) rows).
Proof.
  induction rows as [|r rows IH]; simpl; [reflexivity|].
  destruct (p (g r)); [reflexivity|exact IH].
Qed.

(** A lookup by primary key returns the row that is stored under it. *)
Lemma find_primary_key (pn : PhoneNumber.t) rows :
  NoDup (map PhoneNumber.to_number rows) ->
  In pn rows ->
  find (fun r => String.eqb (PhoneNumber.to_number r) (PhoneNumber.to_number pn)) rows
  = Some pn.
Proof.
  induction rows as [|r rows IH]; intros Hkey Hin; [destruct Hin|].
  simpl in *. inversion Hkey as [|k ks Hnotin Hrest]; subst.
  destruct Hin as [->|Hin].
  - now rewrite String.eqb_refl.
  - destruct (String.eqb_spec (PhoneNumber.to_number r) (PhoneNumber.to_number pn))
      as [Heq|Hne]; [|auto].
    exfalso. apply Hnotin. rewrite Heq. now apply in_map.
Qed.

(** Phone resolution reads [to_number] only: with other [is_active] flags
    it finds the same row, up to the flag. *)
Lemma lookup_phone_entry_reflag flag db To :
  lookup_phone_entry (reflag_phone_numbers flag db) To
  = option_map (fun pn => with_is_active (flag pn) pn) (lookup_phone_entry db To).
Proof.
  unfold lookup_phone_entry. rewrite !first_filter.
  cbn [phone_numbers reflag_phone_numbers]. rewrite !find_map.
  cbn [PhoneNumber.to_number with_is_active].
  destruct (find _ (phone_numbers db)); reflexivity.
Qed.

Lemma handle_incoming_call_reflag flag To From CallSid rec db :
  snd (handle_incoming_call To From CallSid rec (reflag_phone_numbers flag db))
  = snd (handle_incoming_call To From CallSid rec db).
Proof.
  unfold handle_incoming_call. rewrite lookup_phone_entry_reflag.
  cbn [calls reflag_phone_numbers].
  destruct (existsb _ (calls db)); [reflexivity|].
  destruct (lookup_phone_entry db To) as [pe|]; [|reflexivity].
  cbn [option_map].
  change (phone_scenario (reflag_phone_numbers flag db) (with_is_active (flag pe) pe))
    with (phone_scenario db pe).
  destruct (phone_scenario db pe) as [scenario|]; [|reflexivity].
  destruct (negb (Scenario.is_active scenario)); [reflexivity|].
  cbv zeta.
  change (active_questions_of (reflag_phone_numbers flag db) (Scenario.id scenario))
    with (active_questions_of db (Scenario.id scenario)).
  destruct (first _); reflexivity.
Qed.

Lemma greeting_and_guidance_length scenario :
  (2 <= List.length (greeting_and_guidance scenario))%nat.
Proof.
  unfold greeting_and_guidance. rewrite !length_app. simpl. lia.
Qed.

Example call_start_inactive_number :
  snd (handle_incoming_call "+81312345678" "+819000000000" "CA1" credentials_unset
         (survey_db [phone "+81312345678" (Some 1) false]
            [question 10 1 1 "q1" true]))
  = Response [say_ja "hello"; say_ja DEFAULT_GUIDANCE; Pause "1.5"; say_ja "q1";
              RecordVerb "/twilio/record_callback?scenario_id=1&q_curr=10" "#" 0 180]
      "application/xml".
Proof. reflexivity. Qed.

Example call_start_inactive_number_by_scan :
  snd (handle_incoming_call "81 (3) 1234-5678" "+819000000000" "CA1" credentials_unset
         (survey_db [phone "+81312345678" (Some 1) false]
            [question 10 1 1 "q1" true]))
  = Response [say_ja "hello"; say_ja DEFAULT_GUIDANCE; Pause "1.5"; say_ja "q1";
              RecordVerb "/twilio/record_callback?scenario_id=1&q_curr=10" "#" 0 180]
      "application/xml".
Proof. reflexivity. Qed.

(** C9: phone resolution does not read the PhoneNumber's own active flag,
    neither in the exact match nor in the normalised scan.  Take a stored
    PhoneNumber with is_active = false whose Scenario resolves and is
    active, and a new call that dials it: either the stored number itself
    (the number being the key of its table), or any number with the same
    normal form (the stored rows of that normal form referencing one
    Scenario).  Then the lookup finds a row of that Scenario and Call-Start
    answers with the survey script (greeting, disclaimer, guidance, pause,
    first step), not with the "not in service" message; and the answer is
    the same whatever the flags of the stored phone numbers are. *)
Theorem inactive_phone_number_still_routes To From CallSid rec db pn scenario :
  fresh_call db CallSid ->
  In pn (phone_numbers db) ->
  PhoneNumber.is_active pn = false ->
  (To = PhoneNumber.to_number pn /\ phone_numbers_keyed db)
  \/ (normalize_phone To = normalize_phone (PhoneNumber.to_number pn)
      /\ forall pn', In pn' (phone_numbers db) ->
           normalize_phone (PhoneNumber.to_number pn')
           = normalize_phone (PhoneNumber.to_number pn) ->
           PhoneNumber.scenario_id pn' = PhoneNumber.scenario_id pn) ->
  phone_scenario db pn = Some scenario ->
  Scenario.is_active scenario = true ->
  let response := snd (handle_incoming_call To From CallSid rec db) in
  (exists pe,
     lookup_phone_entry db To = Some pe
     /\ PhoneNumber.scenario_id pe = PhoneNumber.scenario_id pn)
  /\ response
     = Response (greeting_and_guidance scenario ++ first_step db (Scenario.id scenario))
         "application/xml"
  /\ (exists rest,
        response
        = Response
            (say_if (Scenario.greeting_text scenario)
             ++ say_if (Scenario.disclaimer_text scenario)
             ++ Say (match truthy (Scenario.question_guidance_text scenario) with
                     | Some t => t
                     | None => DEFAULT_GUIDANCE
                     end) "ja-JP"
                :: Pause "1.5" :: rest)
            "application/xml")
  /\ response
     <> Response [Say "現在この番号は使われておりません。" "ja-JP"] "application/xml"
  /\ forall flag,
       snd (handle_incoming_call To From CallSid rec (reflag_phone_numbers flag db))
       = response.
Proof.
  intros Hfresh Hin Hoff Hdial Hscen Hact response.
  assert (Hlook : exists pe,
            lookup_phone_entry db To = Some pe
            /\ PhoneNumber.scenario_id pe = PhoneNumber.scenario_id pn).
  { destruct Hdial as [[-> Hkey]|[Hnorm Hclass]].
    - exists pn. split; [|reflexivity].
      apply lookup_phone_entry_exact. now apply find_primary_key.
    - destruct (lookup_phone_entry_found db To pn Hin Hnorm) as [pe Hpe].
      exists pe. split; [exact Hpe|].
      apply lookup_phone_entry_class in Hpe. destruct Hpe as [Hpin Hpn].
      apply Hclass; [exact Hpin|congruence]. }
  assert (Hresp : response
     = Response (greeting_and_guidance scenario ++ first_step db (Scenario.id scenario))
         "application/xml").
  { subst response. destruct Hlook as (pe & Hpe & Hsid).
    apply handle_incoming_call_active with (pe := pe); try assumption.
    unfold phone_scenario in *. now rewrite Hsid. }
  split; [exact Hlook|]. split; [exact Hresp|]. split; [|split].
  - exists (first_step db (Scenario.id scenario)). rewrite Hresp.
    unfold greeting_and_guidance. rewrite <- !app_assoc. reflexivity.
  - rewrite Hresp. intros Heq. injection Heq as Heq.
    apply (f_equal (@List.length Verb)) in Heq. rewrite length_app in Heq.
    pose proof (greeting_and_guidance_length scenario). simpl in Heq. lia.
  - intros flag. subst response. apply handle_incoming_call_reflag.
Qed.

Lemma inactive_phone_number_still_routes_witness :
  snd (handle_incoming_call "81 (3) 1234-5678" "+819000000000" "CA1" credentials_unset
         (survey_db [phone "+81312345678" (Some 1) false]
            [question 10 1 1 "q1" true]))
  = Response (greeting_and_guidance survey
              ++ first_step (survey_db [phone "+81312345678" (Some 1) false]
                               [question 10 1 1 "q1" true]) 1)
      "application/xml".
Proof.
  apply (inactive_phone_number_still_routes "81 (3) 1234-5678" "+819000000000" "CA1"
           credentials_unset
           (survey_db [phone "+81312345678" (Some 1) false]
              [question 10 1 1 "q1" true])
           (phone "+81312345678" (Some 1) false) survey).
  - reflexivity.
  - simpl. auto.
  - reflexivity.
  - right. split; [reflexivity|]. intros pn' [<-|[]] _. reflexivity.
  - reflexivity.
  - reflexivity.
Defined.

(** ** Every callback answers with markup? *)

Lemma handle_recording_is_markup scenario_id q_curr CallSid RecordingUrl RecordingSid db :
  is_markup (snd (handle_recording scenario_id q_curr CallSid RecordingUrl RecordingSid db))
  = true.
Proof.
  unfold handle_recording. destruct (get_question db q_curr) as [cq|]; [|reflexivity].
  cbv zeta. destruct (first _); reflexivity.
Qed.

Lemma handle_message_recording_is_markup scenario_id CallSid RecordingUrl RecordingSid db :
  is_markup (snd (handle_message_recording scenario_id CallSid RecordingUrl RecordingSid db))
  = true.
Proof. reflexivity. Qed.

Lemma handle_message_confirm_is_markup scenario_id Digits db :
  is_markup (snd (handle_message_confirm scenario_id Digits db)) = true.
Proof. unfold handle_message_confirm. destruct (String.eqb Digits "1"); reflexivity. Qed.

(** Call-Start answers with markup on a new call unless the number resolves
    to a row whose scenario reference does not. *)
Lemma handle_incoming_call_is_markup To From CallSid rec db :
  fresh_call db CallSid ->
  (forall pe, lookup_phone_entry db To = Some pe -> phone_scenario db pe <> None) ->
  is_markup (snd (handle_incoming_call To From CallSid rec db)) = true.
Proof.
  unfold fresh_call, handle_incoming_call. intros -> Hres.
  destruct (lookup_phone_entry db To) as [pe|]; [|reflexivity].
  specialize (Hres pe eq_refl).
  destruct (phone_scenario db pe) as [scenario|]; [|congruence].
  destruct (negb (Scenario.is_active scenario)); [reflexivity|].
  cbv zeta. destruct (first _); reflexivity.
Qed.

(** On a new call, a resolved phone row whose scenario does not resolve
    makes Call-Start raise. *)
Lemma handle_incoming_call_unresolved_scenario To From CallSid rec db pe :
  fresh_call db CallSid ->
  lookup_phone_entry db To = Some pe ->
  phone_scenario db pe = None ->
  snd (handle_incoming_call To From CallSid rec db)
  = ServerError (AttributeError "is_active").
Proof.
  unfold fresh_call, handle_incoming_call. intros -> -> ->. reflexivity.
Qed.

(** A second Call-Start with a stored call identifier violates the
    primary key of calls. *)
Lemma handle_incoming_call_stored_call To From CallSid rec db :
  ~ fresh_call db CallSid ->
  handle_incoming_call To From CallSid rec db
  = (db, [], ServerError (IntegrityError "calls.call_sid")).
Proof.
  unfold fresh_call, handle_incoming_call. intros H.
  destruct (existsb _ (calls db)); [reflexivity|congruence].
Qed.

(** C3 (the code departs from it): a Call-Start for a stored number whose
    scenario reference is NULL, or names no stored scenario, is answered
    with a server error and not with markup: the Call row is stored, then
    reading [is_active] of the missing scenario raises. *)
Theorem call_start_dangling_scenario_is_server_error :
  handle_incoming_call "+81312345678" "+819000000000" "CA1" credentials_unset
    unassigned_phone_db
  = (set_calls unassigned_phone_db
       [{| Call.call_sid := "CA1"; Call.from_number := "+819000000000";
           Call.to_number := "+81312345678"; Call.scenario_id := None;
           Call.status := "in-progress"; Call.recording_sid := None |}],
     [], ServerError (AttributeError "is_active"))
  /\ handle_incoming_call "+81312345678" "+819000000000" "CA1" credentials_unset
       dangling_phone_db
     = (set_calls dangling_phone_db
          [{| Call.call_sid := "CA1"; Call.from_number := "+819000000000";
              Call.to_number := "+81312345678"; Call.scenario_id := Some 99;
              Call.status := "in-progress"; Call.recording_sid := None |}],
        [], ServerError (AttributeError "is_active"))
  /\ is_markup
       (snd (handle_incoming_call "+81312345678" "+819000000000" "CA1"
               credentials_unset unassigned_phone_db))
     = false.
Proof. repeat split. Qed.

(** ** Record-Received for a question that does not resolve *)

(** C10, as stated, fails: a question identifier that the store cannot
    bind resolves to no Question, and the lookup raises before anything is
    stored: the route answers with a server error, persists no Answer and
    schedules nothing. *)
Lemma record_callback_identifier_out_of_range :
  get_question (survey_db [] [question 10 1 1 "q1" true]) (2 ^ 63) = None
  /\ record_callback 1 (2 ^ 63) "CA1" "http://rec" "RE1"
       (survey_db [] [question 10 1 1 "q1" true])
     = (survey_db [] [question 10 1 1 "q1" true], [], ServerError OverflowError)
  /\ answers
       (fst (fst (record_callback 1 (2 ^ 63) "CA1" "http://rec" "RE1"
                    (survey_db [] [question 10 1 1 "q1" true]))))
     = [].
Proof. repeat split. Qed.

(** C10 (amended): when the question identifier of a Record-Received
    callback is one the store can bind (signed 64-bit) and resolves to no
    Question, the route still appends one new Answer to the answers table
    (with that question reference, question_sort_at_call = 0, transcript
    status 'processing', no transcript text, the callback's call and
    recording) and leaves every other table as it was, schedules the
    transcription job of that answer and recording, and answers with the
    generic error markup. *)
Theorem handle_recording_unresolved_question
    scenario_id q_curr CallSid RecordingUrl RecordingSid db :
  in_int64 q_curr = true ->
  get_question db q_curr = None ->
  exists answer db1,
    record_callback scenario_id q_curr CallSid RecordingUrl RecordingSid db
    = (db1,
       [transcribe_with_whisper_task (Answer.id answer) RecordingUrl RecordingSid],
       Response [Say "エラーが発生しました。" "ja-JP"] "application/xml")
    /\ answers db1 = answers db ++ [answer]
    /\ answer
       = {| Answer.id := next_id (map Answer.id (answers db));
            Answer.call_sid := CallSid;
            Answer.question_id := Some q_curr;
            Answer.answer_type := "recording";
            Answer.recording_sid := Some RecordingSid;
            Answer.recording_url_twilio := Some RecordingUrl;
            Answer.storage_url := None;
            Answer.storage_status := "pending";
            Answer.transcript_text := None;
            Answer.transcript_status := "processing";
            Answer.question_sort_at_call := 0 |}
    /\ (forall a, In a (answers db) -> Answer.id a <> Answer.id answer)
    /\ scenarios db1 = scenarios db
    /\ ending_guidances db1 = ending_guidances db
    /\ phone_numbers db1 = phone_numbers db
    /\ questions db1 = questions db
    /\ calls db1 = calls db
    /\ messages db1 = messages db
    /\ transcription_logs db1 = transcription_logs db.
Proof.
  intros Hq Hnone. unfold record_callback. rewrite Hq, Hnone. cbn [negb]. cbv zeta.
  eexists. eexists. split; [reflexivity|]. split; [reflexivity|].
  split; [reflexivity|]. split; [|repeat split].
  intros a Ha Heq. cbn [Answer.id] in Heq.
  apply (next_id_fresh (map Answer.id (answers db))).
  rewrite <- Heq. now apply in_map.
Qed.

Lemma handle_recording_unresolved_question_witness :
  exists answer db1,
    record_callback 1 77 "CA1" "http://rec" "RE1"
      (survey_db [] [question 10 1 1 "q1" true])
    = (db1,
       [transcribe_with_whisper_task (Answer.id answer) "http://rec" "RE1"],
       Response [Say "エラーが発生しました。" "ja-JP"] "application/xml")
    /\ answers db1 = [answer]
    /\ Answer.question_id answer = Some 77
    /\ Answer.question_sort_at_call answer = 0.
Proof.
  destruct (handle_recording_unresolved_question 1 77 "CA1" "http://rec" "RE1"
              (survey_db [] [question 10 1 1 "q1" true]) eq_refl eq_refl)
    as (answer & db1 & Hrun & Hanswers & Hrow & _).
  exists answer, db1. split; [exact Hrun|]. split; [exact Hanswers|].
  rewrite Hrow. split; reflexivity.
Defined.

(** ** Transcription Pipeline: the write-back and its guard *)

Lemma eq_opt_string_true col v : eq_opt_string col v = true <-> col = Some v.
Proof.
  destruct col as [x|]; simpl.
  - rewrite String.eqb_eq. split; congruence.
  - split; discriminate.
Qed.

Lemma guard_true answer_id recording_sid a :
  guard answer_id recording_sid a = true
  <-> Answer.id a = answer_id /\ Answer.recording_sid a = Some recording_sid.
Proof. unfold guard. rewrite andb_true_iff, Z.eqb_eq, eq_opt_string_true. tauto. Qed.

Lemma guard_rejects_find answer_id recording_sid db :
  ~ guard_accepts answer_id recording_sid db <->
  find (guard answer_id recording_sid) (answers db) = None.
Proof.
  rewrite find_none_iff. unfold guard_accepts. split.
  - intros Hno a Hin. destruct (guard answer_id recording_sid a) eqn:Hg; [|reflexivity].
    exfalso. apply Hno. exists a. apply guard_true in Hg. tauto.
  - intros Hall (a & Hin & Hid & Hsid). specialize (Hall a Hin).
    assert (guard answer_id recording_sid a = true) by (apply guard_true; tauto).
    congruence.
Qed.

Lemma Forall2_same {A} (R : A -> A -> Prop) :
  (forall a, R a a) -> forall rows, Forall2 R rows rows.
Proof. intros Hrefl rows. induction rows; constructor; auto. Qed.

Lemma Forall2_compose {A} (R : A -> A -> Prop) :
  (forall a b c, R a b -> R b c -> R a c) ->
  forall l1 l2 l3, Forall2 R l1 l2 -> Forall2 R l2 l3 -> Forall2 R l1 l3.
Proof.
  intros Htrans l1 l2 l3 H12. revert l3.
  induction H12 as [|a b l1 l2 Hab _ IH]; intros l3 H23; inversion H23; subst;
    constructor; eauto.
Qed.

Section WriteBack.
Context (answer_id : Z) (recording_sid : string).

(** A relation between an answer row before and after a job that the
    guarded assignments respect. *)
Context (R : Answer.t -> Answer.t -> Prop).
Hypothesis R_refl : forall a, R a a.
Hypothesis R_trans : forall a b c, R a b -> R b c -> R a c.
Hypothesis R_set : forall a text status,
  guard answer_id recording_sid a = true -> R a (set_transcript text status a).

Lemma update_first_related f rows :
  (forall a, guard answer_id recording_sid a = true -> R a (f a)) ->
  Forall2 R rows (update_first (guard answer_id recording_sid) f rows).
Proof.
  intros Hf. induction rows as [|r rows IH]; simpl; [constructor|].
  destruct (guard answer_id recording_sid r) eqn:Hg.
  - constructor; [auto|apply Forall2_same, R_refl].
  - constructor; [apply R_refl|exact IH].
Qed.

Lemma except_block_related w e audio_bytes db :
  Forall2 R (answers db)
    (answers (except_block answer_id recording_sid w e audio_bytes db)).
Proof.
  unfold except_block.
  destruct (first _); [destruct (except_commit w)|];
    [|apply Forall2_same, R_refl|apply Forall2_same, R_refl].
  cbn [answers add_log set_transcription_logs set_answers].
  apply update_first_related. intros x Hx. now apply R_set.
Qed.

Lemma write_back_related audio_bytes transcript processing_time db :
  Forall2 R (answers db)
    (answers (write_back answer_id recording_sid audio_bytes transcript
                processing_time db)).
Proof.
  cbn [write_back answers add_log set_transcription_logs set_answers].
  apply update_first_related. intros a Ha. now apply R_set.
Qed.

Lemma after_download_related w r db :
  Forall2 R (answers db) (answers (after_download answer_id recording_sid w r db)).
Proof.
  unfold after_download.
  destruct (write_temp_file w (content r)); [|apply except_block_related].
  destruct (transcriptions_create w); [|apply except_block_related].
  destruct (first _).
  - destruct (commit w); [|apply except_block_related].
    destruct (clean_up w); [apply write_back_related|].
    eapply Forall2_compose; [exact R_trans|apply write_back_related|].
    apply except_block_related.
  - destruct (clean_up w); [apply Forall2_same, R_refl|apply except_block_related].
Qed.

Lemma transcribe_with_whisper_related recording_url w db :
  Forall2 R (answers db)
    (answers (fst (transcribe_with_whisper answer_id recording_url recording_sid w db))).
Proof.
  unfold transcribe_with_whisper.
  destruct (truthy (OPENAI_API_KEY w)); [|apply Forall2_same, R_refl].
  destruct (download_loop w 5 (range 5) 2 None) as [exit trace].
  destruct exit as [r| |e|[r|]]; cbn [fst].
  - apply after_download_related.
  - apply Forall2_same, R_refl.
  - apply except_block_related.
  - apply after_download_related.
  - apply except_block_related.
Qed.

(** When the guard finds no row, nothing at all is written. *)

Lemma except_block_rejected w e audio_bytes db :
  find (guard answer_id recording_sid) (answers db) = None ->
  except_block answer_id recording_sid w e audio_bytes db = db.
Proof. intros H. unfold except_block. rewrite first_filter, H. reflexivity. Qed.

Lemma after_download_rejected w r db :
  find (guard answer_id recording_sid) (answers db) = None ->
  after_download answer_id recording_sid w r db = db.
Proof.
  intros H. unfold after_download. rewrite first_filter, H.
  destruct (write_temp_file w (content r)); [|now apply except_block_rejected].
  destruct (transcriptions_create w); [|now apply except_block_rejected].
  destruct (clean_up w); [reflexivity|now apply except_block_rejected].
Qed.

Lemma transcribe_with_whisper_rejected recording_url w db :
  find (guard answer_id recording_sid) (answers db) = None ->
  fst (transcribe_with_whisper answer_id recording_url recording_sid w db) = db.
Proof.
  intros H. unfold transcribe_with_whisper.
  destruct (truthy (OPENAI_API_KEY w)); [|reflexivity].
  destruct (download_loop w 5 (range 5) 2 None) as [exit trace].
  destruct exit as [r| |e|[r|]]; cbn [fst];
    auto using after_download_rejected, except_block_rejected.
Qed.

End WriteBack.

Example write_back_completes :
  answers (fst (transcribe_with_whisper 2 "http://rec" "RE2" good_world two_answers_db))
  = [sample_answer 1 "RE1";
     set_transcript (Some "hai"%string) "completed" (sample_answer 2 "RE2")].
Proof. reflexivity. Qed.

Example write_back_rejected_on_other_recording :
  fst (transcribe_with_whisper 2 "http://rec" "RE-old" good_world two_answers_db)
  = two_answers_db.
Proof. reflexivity. Qed.

(** C1: a run of the Answer transcription job changes an Answer row only
    if that row has the job's answer id and still stores the recording
    identifier the job was launched with; and when no stored Answer has
    both (the recording identifier differs, or the row is gone), the
    database after the run is the database before it: no Answer is
    touched and the transcription result is dropped. *)
Theorem transcript_write_back_guarded answer_id recording_url recording_sid w db :
  let db' := fst (transcribe_with_whisper answer_id recording_url recording_sid w db) in
  Forall2 (untouched_or_guarded answer_id recording_sid) (answers db) (answers db')
  /\ (forall a a',
        In (a, a') (combine (answers db) (answers db')) ->
        Answer.transcript_status a' = "completed"%string ->
        Answer.transcript_status a <> "completed"%string ->
        Answer.id a = answer_id /\ Answer.recording_sid a = Some recording_sid)
  /\ (~ guard_accepts answer_id recording_sid db -> db' = db).
Proof.
  intros db'.
  assert (Hrel : Forall2 (untouched_or_guarded answer_id recording_sid)
                   (answers db) (answers db')).
  { apply transcribe_with_whisper_related; unfold untouched_or_guarded.
    - intros a. now left.
    - intros a b c [->|Hg] Hbc; [exact Hbc|now right].
    - intros a text status Hg. right. now apply guard_true. }
  split; [exact Hrel|]. split.
  - intros a a' Hin Hdone Hnot.
    assert (Hpair : untouched_or_guarded answer_id recording_sid a a').
    { clear -Hrel Hin. induction Hrel as [|x y l l' Hxy _ IH]; simpl in Hin.
      - destruct Hin.
      - destruct Hin as [[= -> ->]|Hin]; auto. }
    destruct Hpair as [->|Hg]; [congruence|exact Hg].
  - intros Hrej. apply transcribe_with_whisper_rejected.
    now apply guard_rejects_find.
Qed.

Lemma transcript_write_back_guarded_witness :
  fst (transcribe_with_whisper 2 "http://rec" "RE-old" good_world two_answers_db)
  = two_answers_db.
Proof.
  apply (transcript_write_back_guarded 2 "http://rec" "RE-old" good_world two_answers_db).
  intros (a & Hin & Hid & Hsid). simpl in Hin.
  destruct Hin as [<-|[<-|[]]]; simpl in Hid, Hsid; [lia|discriminate Hsid].
Defined.

(** ** Transcription Pipeline: the download loop *)

Example backoff_four :
  backoff 4 = [requested 0; slept 2; requested 1; slept 4;
               requested 2; slept 8; requested 3; slept 16].
Proof. reflexivity. Qed.

Example download_never_ready :
  transcribe_with_whisper 2 "http://rec" "RE2" not_ready_world two_answers_db
  = (two_answers_db,
     [requested 0; slept 2; requested 1; slept 4; requested 2; slept 8;
      requested 3; slept 16; requested 4]).
Proof. reflexivity. Qed.

(** The loop stops after at most five downloads; before each further
    download it has slept twice as long as before the previous one. *)
Lemma download_loop_trace w :
  exists k, (k < 5)%nat
    /\ snd (download_loop w 5 (range 5) 2 None)
       = backoff k ++ [requested (Z.of_nat k)].
Proof.
  change (range 5) with [0; 1; 2; 3; 4].
  loop_round w 0; [stops_after 0%nat| |stops_after 0%nat].
  loop_round w 1; [stops_after 1%nat| |stops_after 1%nat].
  loop_round w 2; [stops_after 2%nat| |stops_after 2%nat].
  loop_round w 3; [stops_after 3%nat| |stops_after 3%nat].
  cbn [download_loop].
  destruct (requests_get w 4) as [r4|e4]; [|stops_after 4%nat].
  destruct (status_code r4 =? 200); [stops_after 4%nat|].
  change (4 <? 5 - 1) with false. cbv iota. stops_after 4%nat.
Qed.

Lemma download_loop_never_ready w :
  never_ready w ->
  download_loop w 5 (range 5) 2 None
  = (loop_return, backoff 4 ++ [requested 4]).
Proof.
  intros Hnever. change (range 5) with [0; 1; 2; 3; 4].
  destruct (Hnever 0 ltac:(lia)) as (r0 & H0 & S0).
  destruct (Hnever 1 ltac:(lia)) as (r1 & H1 & S1).
  destruct (Hnever 2 ltac:(lia)) as (r2 & H2 & S2).
  destruct (Hnever 3 ltac:(lia)) as (r3 & H3 & S3).
  destruct (Hnever 4 ltac:(lia)) as (r4 & H4 & S4).
  apply Z.eqb_neq in S0, S1, S2, S3, S4.
  cbn [download_loop]. rewrite H0, S0, H1, S1, H2, S2, H3, S3, H4, S4.
  reflexivity.
Qed.

Lemma transcribe_with_whisper_trace answer_id recording_url recording_sid w db :
  snd (transcribe_with_whisper answer_id recording_url recording_sid w db)
  = match truthy (OPENAI_API_KEY w) with
    | None => []
    | Some _ => snd (download_loop w 5 (range 5) 2 None)
    end.
Proof.
  unfold transcribe_with_whisper. destruct (truthy (OPENAI_API_KEY w)); [|reflexivity].
  destruct (download_loop w 5 (range 5) 2 None) as [exit trace].
  destruct exit as [r| |e|[r|]]; reflexivity.
Qed.

(** C7: in every run of the Answer transcription job the recording is
    requested at most 5 times, attempt after attempt, and the sleeps
    between consecutive requests are 2, 4, 8, 16 seconds (doubling from
    the initial 2); and if every one of the five requests answers with a
    non-success status, the run ends after the fifth, having slept four
    times, and leaves the database (transcript text and status of every
    Answer included) as it was. *)
Theorem download_retries_bounded answer_id recording_url recording_sid w db :
  let result := transcribe_with_whisper answer_id recording_url recording_sid w db in
  (snd result = []
   \/ exists k, (k < 5)%nat
        /\ snd result = backoff k ++ [requested (Z.of_nat k)]
        /\ attempts (snd result) = map Z.of_nat (seq 0 (S k))
        /\ delays (snd result) = firstn k [2; 4; 8; 16])
  /\ (List.length (attempts (snd result)) <= 5)%nat
  /\ (truthy (OPENAI_API_KEY w) <> None -> never_ready w ->
      fst result = db
      /\ snd result = backoff 4 ++ [requested 4]
      /\ delays (snd result) = [2; 4; 8; 16]).
Proof.
  intros result. subst result.
  assert (Hshape :
    snd (transcribe_with_whisper answer_id recording_url recording_sid w db) = []
    \/ exists k, (k < 5)%nat
        /\ snd (transcribe_with_whisper answer_id recording_url recording_sid w db)
           = backoff k ++ [requested (Z.of_nat k)]
        /\ attempts (snd (transcribe_with_whisper answer_id recording_url
                            recording_sid w db))
           = map Z.of_nat (seq 0 (S k))
        /\ delays (snd (transcribe_with_whisper answer_id recording_url
                          recording_sid w db))
           = firstn k [2; 4; 8; 16]).
  { rewrite transcribe_with_whisper_trace.
    destruct (truthy (OPENAI_API_KEY w)); [right|now left].
    destruct (download_loop_trace w) as (k & Hk & ->).
    exists k. split; [exact Hk|]. split; [reflexivity|].
    destruct k as [|[|[|[|[|k]]]]]; try lia; split; reflexivity. }
  split; [exact Hshape|]. split.
  - destruct Hshape as [->|(k & Hk & _ & -> & _)]; simpl List.length; [lia|].
    rewrite length_map, length_seq. lia.
  - intros Hkey Hnever. unfold transcribe_with_whisper.
    destruct (truthy (OPENAI_API_KEY w)); [|congruence].
    rewrite (download_loop_never_ready w Hnever). repeat split.
Qed.

Lemma download_retries_bounded_witness :
  fst (transcribe_with_whisper 2 "http://rec" "RE2" not_ready_world two_answers_db)
  = two_answers_db
  /\ delays (snd (transcribe_with_whisper 2 "http://rec" "RE2" not_ready_world
                    two_answers_db))
     = [2; 4; 8; 16].
Proof.
  destruct (download_retries_bounded 2 "http://rec" "RE2" not_ready_world
              two_answers_db) as (_ & _ & Hfail).
  destruct Hfail as (Hdb & _ & Hdelays).
  - simpl. discriminate.
  - intros n Hn. exists {| status_code := 404; content := "" |}.
    split; [reflexivity|]. simpl. lia.
  - split; assumption.
Defined.

(** ** Transcription logs *)

Lemma set_answers_same db : set_answers db (answers db) = db.
Proof. destruct db; reflexivity. Qed.

Lemma find_guard_accepts answer_id recording_sid db :
  guard_accepts answer_id recording_sid db ->
  exists a, find (guard answer_id recording_sid) (answers db) = Some a.
Proof.
  intros Hacc. destruct (find _ (answers db)) as [a|] eqn:Hf; [eauto|].
  exfalso. now apply guard_rejects_find in Hf.
Qed.

(** The loop gives up only after five answers with a status other than
    200. *)
Lemma download_loop_exhausted w :
  fst (download_loop w 5 (range 5) 2 None) = loop_return -> never_ready w.
Proof.
  change (range 5) with [0; 1; 2; 3; 4]. cbn [download_loop]. intros H.
  destruct (requests_get w 0) as [r0|] eqn:G0; [|discriminate H].
  destruct (status_code r0 =? 200) eqn:S0; [discriminate H|].
  change (0 <? 5 - 1) with true in H. cbv iota in H.
  destruct (requests_get w 1) as [r1|] eqn:G1; [|discriminate H].
  destruct (status_code r1 =? 200) eqn:S1; [discriminate H|].
  change (1 <? 5 - 1) with true in H. cbv iota in H.
  destruct (requests_get w 2) as [r2|] eqn:G2; [|discriminate H].
  destruct (status_code r2 =? 200) eqn:S2; [discriminate H|].
  change (2 <? 5 - 1) with true in H. cbv iota in H.
  destruct (requests_get w 3) as [r3|] eqn:G3; [|discriminate H].
  destruct (status_code r3 =? 200) eqn:S3; [discriminate H|].
  change (3 <? 5 - 1) with true in H. cbv iota in H.
  destruct (requests_get w 4) as [r4|] eqn:G4; [|discriminate H].
  destruct (status_code r4 =? 200) eqn:S4; [discriminate H|].
  apply Z.eqb_neq in S0, S1, S2, S3, S4.
  intros n Hn.
  assert (Hcases : n = 0 \/ n = 1 \/ n = 2 \/ n = 3 \/ n = 4) by lia.
  destruct Hcases as [->|[->|[->|[->| ->]]]]; eauto.
Qed.

Section Logs.
Context (answer_id : Z) (recording_sid : string).

Lemma except_block_accepted w e audio_bytes db :
  guard_accepts answer_id recording_sid db ->
  except_commit w = returns tt ->
  outcome_failed answer_id recording_sid db
    (except_block answer_id recording_sid w e audio_bytes db).
Proof.
  intros Hacc Hexc. destruct (find_guard_accepts _ _ _ Hacc) as [a Ha].
  unfold except_block. rewrite first_filter, Ha, Hexc.
  eexists. repeat split.
Qed.

Lemma write_back_completed audio_bytes transcript processing_time db :
  outcome_completed answer_id recording_sid db
    (write_back answer_id recording_sid audio_bytes transcript processing_time db).
Proof. unfold write_back. eexists. eexists. repeat split. Qed.

(** With the guard accepting and no exception after the commit, a run
    past the download writes exactly one outcome. *)
Lemma after_download_outcome w r db :
  clean_up w = returns tt ->
  except_commit w = returns tt ->
  guard_accepts answer_id recording_sid db ->
  let db' := after_download answer_id recording_sid w r db in
  outcome_completed answer_id recording_sid db db'
  \/ outcome_failed answer_id recording_sid db db'.
Proof.
  intros Hclean Hexc Hacc db'. subst db'. unfold after_download.
  destruct (find_guard_accepts _ _ _ Hacc) as [a Ha].
  rewrite first_filter, Ha, Hclean.
  destruct (write_temp_file w (content r));
    [|right; now apply except_block_accepted].
  destruct (transcriptions_create w);
    [|right; now apply except_block_accepted].
  destruct (commit w); [|right; now apply except_block_accepted].
  left. apply write_back_completed.
Qed.

Lemma except_block_logs w e audio_bytes db :
  exists added,
    transcription_logs (except_block answer_id recording_sid w e audio_bytes db)
    = transcription_logs db ++ added.
Proof.
  unfold except_block.
  destruct (first _); [destruct (except_commit w)|].
  - eexists. reflexivity.
  - exists []. now rewrite app_nil_r.
  - exists []. now rewrite app_nil_r.
Qed.

Lemma after_download_logs w r db :
  exists added,
    transcription_logs (after_download answer_id recording_sid w r db)
    = transcription_logs db ++ added.
Proof.
  unfold after_download.
  destruct (write_temp_file w (content r)) as [audio_bytes|];
    [|apply except_block_logs].
  destruct (transcriptions_create w) as [transcript|]; [|apply except_block_logs].
  destruct (first _).
  - destruct (commit w); [|apply except_block_logs].
    destruct (clean_up w) as [|e].
    + eexists. reflexivity.
    + destruct (except_block_logs w e (Some audio_bytes)
                  (write_back answer_id recording_sid audio_bytes transcript
                     (elapsed w) db))
        as [added ->].
      cbn [write_back add_log transcription_logs set_transcription_logs set_answers].
      rewrite <- app_assoc. eexists. reflexivity.
  - destruct (clean_up w); [|apply except_block_logs].
    exists []. now rewrite app_nil_r.
Qed.

Lemma transcribe_with_whisper_logs recording_url w db :
  exists added,
    transcription_logs
      (fst (transcribe_with_whisper answer_id recording_url recording_sid w db))
    = transcription_logs db ++ added.
Proof.
  unfold transcribe_with_whisper.
  destruct (truthy (OPENAI_API_KEY w));
    [|exists []; now rewrite app_nil_r].
  destruct (download_loop w 5 (range 5) 2 None) as [exit trace].
  destruct exit as [r| |e|[r|]]; cbn [fst];
    auto using after_download_logs, except_block_logs.
  exists []. now rewrite app_nil_r.
Qed.

(** With an API key, the downloads not exhausted, the guard accepting and
    neither the clean-up nor the except block's commit raising, a run
    writes exactly one outcome. *)
Lemma transcribe_with_whisper_outcome recording_url w db :
  truthy (OPENAI_API_KEY w) <> None ->
  ~ never_ready w ->
  clean_up w = returns tt ->
  except_commit w = returns tt ->
  guard_accepts answer_id recording_sid db ->
  let db' :=
    fst (transcribe_with_whisper answer_id recording_url recording_sid w db) in
  outcome_completed answer_id recording_sid db db'
  \/ outcome_failed answer_id recording_sid db db'.
Proof.
  intros Hkey Hready Hclean Hexc Hacc db'. subst db'. unfold transcribe_with_whisper.
  destruct (truthy (OPENAI_API_KEY w)); [|congruence].
  pose proof (download_loop_exhausted w) as Hexhausted.
  destruct (download_loop w 5 (range 5) 2 None) as [exit trace].
  destruct exit as [r| |e|[r|]]; cbn [fst].
  - now apply after_download_outcome.
  - exfalso. apply Hready. now apply Hexhausted.
  - right. now apply except_block_accepted.
  - now apply after_download_outcome.
  - right. now apply except_block_accepted.
Qed.

End Logs.

(** The message job writes to the messages table only. *)
Lemma transcribe_message_with_whisper_db message_id recording_url recording_sid w db :
  exists ms,
    fst (transcribe_message_with_whisper message_id recording_url recording_sid w db)
    = set_messages db ms.
Proof.
  assert (Hsame : exists ms, db = set_messages db ms).
  { exists (messages db). destruct db; reflexivity. }
  unfold transcribe_message_with_whisper.
  destruct (truthy (OPENAI_API_KEY w)); [|exact Hsame].
  destruct (message_download_loop w (range 5) 2 None) as [exit trace].
  destruct exit as [r| |e|[r|]]; cbn [fst]; try exact Hsame.
  all: destruct (negb (status_code r =? 200)); [exact Hsame|].
  all: destruct (write_temp_file w (content r)); [|exact Hsame].
  all: destruct (transcriptions_create w); [|exact Hsame].
  all: destruct (commit w); [|exact Hsame].
  all: eexists; reflexivity.
Qed.

(** The callbacks write to calls, answers and messages only. *)
Lemma handle_incoming_call_db To From CallSid rec db :
  exists cs, fst (fst (handle_incoming_call To From CallSid rec db)) = set_calls db cs.
Proof.
  unfold handle_incoming_call.
  destruct (existsb _ (calls db)).
  { exists (calls db). destruct db; reflexivity. }
  destruct (lookup_phone_entry db To) as [pe|]; [|eexists; reflexivity].
  destruct (phone_scenario db pe) as [scenario|]; [|eexists; reflexivity].
  destruct (negb (Scenario.is_active scenario)); [eexists; reflexivity|].
  cbv zeta. destruct (first _); eexists; reflexivity.
Qed.

Lemma handle_recording_db scenario_id q_curr CallSid RecordingUrl RecordingSid db :
  exists answer,
    fst (fst (handle_recording scenario_id q_curr CallSid RecordingUrl RecordingSid db))
    = set_answers db (answers db ++ [answer])
    /\ Answer.question_id answer = Some q_curr
    /\ Answer.question_sort_at_call answer
       = match get_question db q_curr with
         | Some q => Question.sort_order q
         | None => 0
         end.
Proof.
  unfold handle_recording. cbv zeta.
  match goal with |- context [answers db ++ [?a]] => exists a end.
  split; [|split; reflexivity].
  destruct (get_question db q_curr) as [cq|]; [|reflexivity].
  destruct (first _); reflexivity.
Qed.

Lemma handle_message_confirm_db scenario_id Digits db :
  fst (fst (handle_message_confirm scenario_id Digits db)) = db.
Proof. unfold handle_message_confirm. destruct (String.eqb Digits "1"); reflexivity. Qed.

(** No operation rewrites or removes a stored log row. *)
Lemma exec_logs op db :
  exists added, transcription_logs (exec op db) = transcription_logs db ++ added.
Proof.
  destruct op; cbn [exec].
  - destruct (handle_incoming_call_db To From CallSid rec db) as [cs ->].
    exists []. now rewrite app_nil_r.
  - destruct (handle_recording_db scenario_id q_curr CallSid RecordingUrl RecordingSid db)
      as (answer & -> & _).
    exists []. now rewrite app_nil_r.
  - exists []. now rewrite app_nil_r.
  - rewrite handle_message_confirm_db. exists []. now rewrite app_nil_r.
  - exists []. now rewrite app_nil_r.
  - apply transcribe_with_whisper_logs.
  - destruct (transcribe_message_with_whisper_db message_id recording_url
                recording_sid w db) as [ms ->].
    exists []. now rewrite app_nil_r.
  - exists []. now rewrite app_nil_r.
Qed.

Lemma run_logs ops : forall db,
  exists added, transcription_logs (run ops db) = transcription_logs db ++ added.
Proof.
  induction ops as [|op ops IH]; intros db; cbn [run fold_left].
  - exists []. now rewrite app_nil_r.
  - destruct (IH (exec op db)) as [later Hlater].
    destruct (exec_logs op db) as [now_added Hnow].
    unfold run in Hlater. rewrite Hlater, Hnow, <- app_assoc. eexists. reflexivity.
Qed.

Example whisper_failure_is_logged :
  fst (transcribe_with_whisper 2 "http://rec" "RE2" whisper_down_world two_answers_db)
  = add_log
      (set_answers two_answers_db
         [sample_answer 1 "RE1";
          set_transcript None "failed" (sample_answer 2 "RE2")])
      (failure_log 2 "RE2" (Some 3) (OtherError "503")).
Proof. reflexivity. Qed.

(** Outside the amended statement below: an exception raised after the
    commit sends a completed answer through the except block as well. *)
Example exception_after_commit :
  map TranscriptionLog.status
    (transcription_logs
       (fst (transcribe_with_whisper 2 "http://rec" "RE2" clean_up_fails_world
               two_answers_db)))
  = ["success"%string; "failed"%string]
  /\ map Answer.transcript_status
       (answers
          (fst (transcribe_with_whisper 2 "http://rec" "RE2" clean_up_fails_world
                  two_answers_db)))
     = ["processing"%string; "failed"%string].
Proof. split; reflexivity. Qed.

(** C2, as stated, fails: a message transcription that succeeds (the
    message gets its transcript) appends no TranscriptionLog row, and
    neither does an Answer transcription whose write-back guard rejects. *)
Lemma transcription_attempts_without_log :
  (exists m,
     messages (fst (transcribe_message_with_whisper 1 "http://rec" "RE9" good_world
                      one_message_db)) = [m]
     /\ Message.transcript_text m = Some "hai"%string)
  /\ ~ (exists row,
          transcription_logs
            (fst (transcribe_message_with_whisper 1 "http://rec" "RE9" good_world
                    one_message_db))
          = transcription_logs one_message_db ++ [row])
  /\ ~ (exists row,
          transcription_logs
            (fst (transcribe_with_whisper 2 "http://rec" "RE-old" good_world
                    two_answers_db))
          = transcription_logs two_answers_db ++ [row]).
Proof.
  split; [|split].
  - eexists. split; reflexivity.
  - intros [row H]. discriminate H.
  - intros [row H]. discriminate H.
Qed.

(** C2 (amended): no operation ever rewrites or removes a stored
    TranscriptionLog row: every history only appends.  A message
    transcription attempt appends none, and neither does an Answer
    transcription attempt whose write-back guard rejects.  An Answer
    transcription attempt made with an API key, whose five downloads are
    not all answered with a non-success status, whose guard accepts, and in
    which neither the clean-up after the write-back nor the commit of the
    failure handler raises, appends exactly one row recording its outcome:
    a 'success' row with the Answer marked 'completed', or a 'failed' row
    with the Answer marked 'failed'. *)
Theorem transcription_log_append_only :
  (forall ops db,
     exists added, transcription_logs (run ops db) = transcription_logs db ++ added)
  /\ (forall message_id recording_url recording_sid w db,
        transcription_logs
          (fst (transcribe_message_with_whisper message_id recording_url
                  recording_sid w db))
        = transcription_logs db)
  /\ (forall answer_id recording_url recording_sid w db,
        ~ guard_accepts answer_id recording_sid db ->
        transcription_logs
          (fst (transcribe_with_whisper answer_id recording_url recording_sid w db))
        = transcription_logs db)
  /\ (forall answer_id recording_url recording_sid w db,
        truthy (OPENAI_API_KEY w) <> None ->
        ~ never_ready w ->
        guard_accepts answer_id recording_sid db ->
        clean_up w = returns tt ->
        except_commit w = returns tt ->
        let db' :=
          fst (transcribe_with_whisper answer_id recording_url recording_sid w db) in
        (exists row,
           transcription_logs db' = transcription_logs db ++ [row]
           /\ TranscriptionLog.answer_id row = Some answer_id
           /\ (TranscriptionLog.status row = "success"%string
               \/ TranscriptionLog.status row = "failed"%string))
        /\ (outcome_completed answer_id recording_sid db db'
            \/ outcome_failed answer_id recording_sid db db')).
Proof.
  split; [intros ops db; apply run_logs|]. split; [|split].
  - intros message_id recording_url recording_sid w db.
    destruct (transcribe_message_with_whisper_db message_id recording_url
                recording_sid w db) as [ms ->].
    reflexivity.
  - intros answer_id recording_url recording_sid w db Hrej.
    rewrite transcribe_with_whisper_rejected; [reflexivity|].
    now apply guard_rejects_find.
  - intros answer_id recording_url recording_sid w db Hkey Hready Hacc Hclean Hexc db'.
    pose proof (transcribe_with_whisper_outcome answer_id recording_sid recording_url
                  w db Hkey Hready Hclean Hexc Hacc) as Hout.
    split; [|exact Hout].
    destruct Hout as [(row & t & Hlogs & Hstatus & Hid & _)
                     |(row & Hlogs & Hstatus & Hid & _)];
      exists row; auto.
Qed.

Lemma transcription_log_append_only_witness :
  transcription_logs
    (fst (transcribe_with_whisper 2 "http://rec" "RE-old" good_world two_answers_db))
  = transcription_logs two_answers_db
  /\ (outcome_completed 2 "RE2" two_answers_db
        (fst (transcribe_with_whisper 2 "http://rec" "RE2" good_world two_answers_db))
      \/ outcome_failed 2 "RE2" two_answers_db
           (fst (transcribe_with_whisper 2 "http://rec" "RE2" good_world two_answers_db))).
Proof.
  destruct transcription_log_append_only as (_ & _ & Hrej & Hacc).
  split.
  - apply Hrej. intros (a & Hin & Hid & Hsid). simpl in Hin.
    destruct Hin as [<-|[<-|[]]]; simpl in Hid, Hsid; [lia|discriminate Hsid].
  - apply Hacc.
    + simpl. discriminate.
    + intros Hnever. destruct (Hnever 0 ltac:(lia)) as (r & Hr & Hs).
      simpl in Hr. injection Hr as <-. simpl in Hs. lia.
    + exists (sample_answer 2 "RE2"). simpl. auto.
    + reflexivity.
    + reflexivity.
Defined.

(** ** Answers: what is fixed at creation *)

Lemma same_but_transcript_refl a : same_but_transcript a a.
Proof. unfold same_but_transcript. tauto. Qed.

Lemma same_but_transcript_trans a b c :
  same_but_transcript a b -> same_but_transcript b c -> same_but_transcript a c.
Proof.
  unfold same_but_transcript. intros Hab Hbc.
  repeat match goal with H : _ /\ _ |- _ => destruct H end.
  repeat split; congruence.
Qed.

Lemma set_transcript_same_but_transcript text status a :
  same_but_transcript a (set_transcript text status a).
Proof. unfold same_but_transcript. simpl. tauto. Qed.

Lemma answers_kept_same db db' : answers db' = answers db -> answers_kept db db'.
Proof.
  intros H. exists (answers db), []. rewrite app_nil_r. split; [exact H|].
  apply Forall2_same, same_but_transcript_refl.
Qed.

Lemma answers_kept_trans db1 db2 db3 :
  answers_kept db1 db2 -> answers_kept db2 db3 -> answers_kept db1 db3.
Proof.
  intros (k1 & a1 & H1 & F1) (k2 & a2 & H2 & F2).
  rewrite H1 in F2. apply Forall2_app_inv_l in F2.
  destruct F2 as (k2a & k2b & Fa & Fb & ->).
  exists k2a, (k2b ++ a2). rewrite H2, <- app_assoc. split; [reflexivity|].
  eapply Forall2_compose; [exact same_but_transcript_trans|exact F1|exact Fa].
Qed.

Lemma exec_answers_kept op db : answers_kept db (exec op db).
Proof.
  destruct op; cbn [exec].
  - destruct (handle_incoming_call_db To From CallSid rec db) as [cs ->].
    now apply answers_kept_same.
  - destruct (handle_recording_db scenario_id q_curr CallSid RecordingUrl RecordingSid db)
      as (answer & -> & _).
    exists (answers db), [answer]. split; [reflexivity|].
    apply Forall2_same, same_but_transcript_refl.
  - now apply answers_kept_same.
  - rewrite handle_message_confirm_db. now apply answers_kept_same.
  - now apply answers_kept_same.
  - exists (answers (fst (transcribe_with_whisper answer_id recording_url
                            recording_sid w db))), [].
    rewrite app_nil_r. split; [reflexivity|].
    apply transcribe_with_whisper_related.
    + apply same_but_transcript_refl.
    + apply same_but_transcript_trans.
    + intros a text status _. apply set_transcript_same_but_transcript.
  - destruct (transcribe_message_with_whisper_db message_id recording_url
                recording_sid w db) as [ms ->].
    now apply answers_kept_same.
  - now apply answers_kept_same.
Qed.

Lemma run_answers_kept ops : forall db, answers_kept db (run ops db).
Proof.
  induction ops as [|op ops IH]; intros db; cbn [run fold_left].
  - now apply answers_kept_same.
  - eapply answers_kept_trans; [apply exec_answers_kept|apply IH].
Qed.


Example snapshot_survives_edit :
  answers (run answered_then_edited (survey_db [] [question 10 1 5 "q1" true]))
  = [{| Answer.id := 1; Answer.call_sid := "CA1"; Answer.question_id := Some 10;
        Answer.answer_type := "recording"; Answer.recording_sid := Some "RE1"%string;
        Answer.recording_url_twilio := Some "http://rec"%string;
        Answer.storage_url := None; Answer.storage_status := "pending";
        Answer.transcript_text := Some "hai"%string;
        Answer.transcript_status := "completed";
        Answer.question_sort_at_call := 5 |}].
Proof. reflexivity. Qed.



(** * Further properties of the router *)

(** ** normalize_phone *)

Lemma normalize_phone_strip number :
  normalize_phone number
  = if startswith_plus (strip_punctuation number)
    then strip_punctuation number
    else String "+"%char (strip_punctuation number).
Proof.
  unfold normalize_phone, strip_punctuation.
  destruct (startswith_plus _); reflexivity.
Qed.

Lemma contains_replace_same c s : contains_char c (replace_with_empty c s) = false.
Proof.
  induction s as [|d rest IH]; simpl; [reflexivity|].
  destruct (Ascii.eqb d c) eqn:E; simpl; [exact IH|]. now rewrite E.
Qed.

Lemma contains_replace_other c d s :
  contains_char c s = false -> contains_char c (replace_with_empty d s) = false.
Proof.
  induction s as [|x rest IH]; simpl; [reflexivity|].
  intros H. apply orb_false_iff in H. destruct H as [Hx Hrest].
  destruct (Ascii.eqb x d); simpl; [auto|]. rewrite Hx. auto.
Qed.

Lemma replace_absent c s : contains_char c s = false -> replace_with_empty c s = s.
Proof.
  induction s as [|x rest IH]; simpl; [reflexivity|].
  intros H. apply orb_false_iff in H. destruct H as [Hx Hrest].
  rewrite Hx, IH; auto.
Qed.

Lemma strip_punctuation_clean number :
  contains_char " "%char (strip_punctuation number) = false
  /\ contains_char "-"%char (strip_punctuation number) = false
  /\ contains_char "("%char (strip_punctuation number) = false
  /\ contains_char ")"%char (strip_punctuation number) = false.
Proof.
  unfold strip_punctuation. repeat split;
    auto using contains_replace_same, contains_replace_other.
Qed.

Lemma strip_punctuation_fixed s :
  contains_char " "%char s = false -> contains_char "-"%char s = false ->
  contains_char "("%char s = false -> contains_char ")"%char s = false ->
  strip_punctuation s = s.
Proof.
  intros H1 H2 H3 H4. unfold strip_punctuation.
  now rewrite (replace_absent " "%char), (replace_absent "-"%char),
    (replace_absent "("%char), (replace_absent ")"%char).
Qed.

(** The shape of a normalised number. *)
Lemma normalize_phone_shape number :
  startswith_plus (normalize_phone number) = true
  /\ contains_char " "%char (normalize_phone number) = false
  /\ contains_char "-"%char (normalize_phone number) = false
  /\ contains_char "("%char (normalize_phone number) = false
  /\ contains_char ")"%char (normalize_phone number) = false.
Proof.
  rewrite normalize_phone_strip.
  destruct (strip_punctuation_clean number) as (H1 & H2 & H3 & H4).
  destruct (startswith_plus (strip_punctuation number)) eqn:Hplus.
  - auto.
  - simpl. rewrite H1, H2, H3, H4. auto.
Qed.

(** X1: a normalised number starts with '+' and holds no space, hyphen or
    parenthesis. *)
Theorem normalize_phone_canonical_form number :
  startswith_plus (normalize_phone number) = true
  /\ contains_char " "%char (normalize_phone number) = false
  /\ contains_char "-"%char (normalize_phone number) = false
  /\ contains_char "("%char (normalize_phone number) = false
  /\ contains_char ")"%char (normalize_phone number) = false.
Proof. exact (normalize_phone_shape number). Qed.

(** X2: normalising is idempotent: a normalised number is its own
    normal form. *)
Theorem normalize_phone_idempotent number :
  normalize_phone (normalize_phone number) = normalize_phone number.
Proof.
  destruct (normalize_phone_shape number) as (Hplus & H1 & H2 & H3 & H4).
  rewrite (normalize_phone_strip (normalize_phone number)).
  rewrite (strip_punctuation_fixed _ H1 H2 H3 H4), Hplus. reflexivity.
Qed.

(** X3: a dialed number that matches some stored number up to
    normalisation is answered by a stored row of the same normal form;
    a dialed number that matches none is answered by no row. *)
Theorem lookup_phone_entry_complete db To :
  (exists pn, In pn (phone_numbers db)
              /\ normalize_phone (PhoneNumber.to_number pn) = normalize_phone To)
  <-> exists pe, lookup_phone_entry db To = Some pe.
Proof.
  split.
  - intros (pn & Hin & Hnorm). now apply lookup_phone_entry_found with (pn := pn).
  - intros [pe Hpe]. exists pe. now apply lookup_phone_entry_class.
Qed.

(** ** Call-Start *)

(** X4: on a new call whose phone row (if any) has a resolving scenario,
    Call-Start answers with the one-sentence "not in service" markup
    exactly when the dialed number matches no stored number or its
    scenario is inactive; the two cases give the same response. *)
Theorem call_start_not_in_service_iff To From CallSid rec db :
  fresh_call db CallSid ->
  (forall pe, lookup_phone_entry db To = Some pe -> phone_scenario db pe <> None) ->
  (snd (handle_incoming_call To From CallSid rec db)
   = Response [say_ja NOT_IN_SERVICE] "application/xml"
   <-> lookup_phone_entry db To = None
       \/ exists pe scenario,
            lookup_phone_entry db To = Some pe
            /\ phone_scenario db pe = Some scenario
            /\ Scenario.is_active scenario = false).
Proof.
  intros Hfresh Hres. split.
  - intros Hresp.
    destruct (lookup_phone_entry db To) as [pe|] eqn:Hlook; [right|now left].
    destruct (phone_scenario db pe) as [scenario|] eqn:Hscen;
      [|now destruct (Hres pe eq_refl)].
    exists pe, scenario. split; [reflexivity|]. split; [exact Hscen|].
    destruct (Scenario.is_active scenario) eqn:Hact; [exfalso|reflexivity].
    rewrite (handle_incoming_call_active _ _ _ _ _ _ _ Hfresh Hlook Hscen Hact)
      in Hresp.
    injection Hresp as Heq.
    apply (f_equal (@List.length Verb)) in Heq. rewrite length_app in Heq.
    pose proof (greeting_and_guidance_length scenario). simpl in Heq. lia.
  - unfold fresh_call in Hfresh. unfold handle_incoming_call. rewrite Hfresh.
    intros [->|(pe & scenario & -> & -> & ->)]; reflexivity.
Qed.

Lemma call_start_not_in_service_iff_witness :
  snd (handle_incoming_call "+10000" "+819000000000" "CA1" credentials_unset
         (survey_db [phone "+81312345678" (Some 1) true] []))
  = Response [say_ja NOT_IN_SERVICE] "application/xml".
Proof.
  apply (call_start_not_in_service_iff "+10000" "+819000000000" "CA1"
           credentials_unset (survey_db [phone "+81312345678" (Some 1) true] [])).
  - reflexivity.
  - intros pe H. discriminate H.
  - left. reflexivity.
Defined.

(** X5: starting the whole-call recording never changes what the caller
    hears: the response and the scheduled tasks are the same for every
    outcome of the start, and a failed start stores the same Call row as
    unset credentials do. *)
Theorem call_start_recording_is_not_fatal To From CallSid rec rec' db :
  snd (handle_incoming_call To From CallSid rec db)
  = snd (handle_incoming_call To From CallSid rec' db)
  /\ snd (fst (handle_incoming_call To From CallSid rec db))
     = snd (fst (handle_incoming_call To From CallSid rec' db))
  /\ (started_sid rec = started_sid rec' ->
      handle_incoming_call To From CallSid rec db
      = handle_incoming_call To From CallSid rec' db).
Proof.
  unfold handle_incoming_call.
  destruct (existsb _ (calls db)); [repeat split|].
  destruct (lookup_phone_entry db To) as [pe|].
  - destruct (phone_scenario db pe) as [scenario|].
    + destruct (negb (Scenario.is_active scenario)).
      * repeat split. intros ->. reflexivity.
      * cbv zeta. destruct (first _); repeat split; intros ->; reflexivity.
    + repeat split. intros ->. reflexivity.
  - repeat split. intros ->. reflexivity.
Qed.

Lemma call_start_recording_is_not_fatal_witness :
  handle_incoming_call "+81312345678" "+819000000000" "CA1"
    (recording_failed (OtherError "twilio")) (survey_db [] [])
  = handle_incoming_call "+81312345678" "+819000000000" "CA1"
      credentials_unset (survey_db [] []).
Proof.
  apply (call_start_recording_is_not_fatal "+81312345678" "+819000000000" "CA1"
           (recording_failed (OtherError "twilio")) credentials_unset
           (survey_db [] [])).
  reflexivity.
Defined.

(** X6: when Call-Start (new call, active scenario) asks a question, it is
    an active question of the resolved scenario with the least sort
    position among them, and the record callback it points to resolves to
    a stored question; it asks one whenever the scenario has an active
    question. *)
Theorem call_start_first_question To From CallSid rec db pe scenario :
  fresh_call db CallSid ->
  lookup_phone_entry db To = Some pe ->
  phone_scenario db pe = Some scenario ->
  Scenario.is_active scenario = true ->
  (exists q, In q (questions db) /\ active_in (Scenario.id scenario) q) ->
  exists first_question,
    snd (handle_incoming_call To From CallSid rec db)
    = Response (greeting_and_guidance scenario
                ++ ask_question (Scenario.id scenario) first_question)
        "application/xml"
    /\ In first_question (questions db)
    /\ active_in (Scenario.id scenario) first_question
    /\ (forall q, In q (questions db) -> active_in (Scenario.id scenario) q ->
          Question.sort_order first_question <= Question.sort_order q)
    /\ get_question db (Question.id first_question) <> None.
Proof.
  intros Hfresh Hlook Hscen Hact (q0 & Hq0 & Hactive0).
  rewrite (handle_incoming_call_active _ _ _ _ _ _ _ Hfresh Hlook Hscen Hact).
  unfold first_step.
  destruct (first (order_by Question.sort_order
                     (active_questions_of db (Scenario.id scenario))))
    as [fq|] eqn:Hfirst.
  - exists fq. split; [reflexivity|].
    destruct (first_order_by_least _ _ _ Hfirst) as [Hin Hleast].
    unfold active_questions_of in Hin, Hleast.
    apply filter_In in Hin. destruct Hin as [Hin Hf].
    apply active_filter_active_in in Hf.
    split; [exact Hin|]. split; [exact Hf|]. split.
    + intros q Hq Haq. apply Hleast. apply filter_In. split; [exact Hq|].
      now apply active_filter_active_in.
    + unfold get_question. rewrite first_filter. intros Hnone.
      rewrite find_none_iff in Hnone. specialize (Hnone fq Hin).
      now rewrite Z.eqb_refl in Hnone.
  - exfalso. apply first_order_by_none in Hfirst.
    assert (Hin : In q0 (active_questions_of db (Scenario.id scenario))).
    { apply filter_In. split; [exact Hq0|]. now apply active_filter_active_in. }
    rewrite Hfirst in Hin. destruct Hin.
Qed.

Lemma call_start_first_question_witness :
  exists first_question,
    snd (handle_incoming_call "+81312345678" "+819000000000" "CA1" credentials_unset
           (survey_db [phone "+81312345678" (Some 1) true]
              [question 20 1 4 "q2" true; question 10 1 1 "q1" true]))
    = Response (greeting_and_guidance survey ++ ask_question 1 first_question)
        "application/xml"
    /\ In first_question [question 20 1 4 "q2" true; question 10 1 1 "q1" true].
Proof.
  destruct (call_start_first_question
              "+81312345678" "+819000000000" "CA1" credentials_unset
              (survey_db [phone "+81312345678" (Some 1) true]
                 [question 20 1 4 "q2" true; question 10 1 1 "q1" true])
              (phone "+81312345678" (Some 1) true) survey
              eq_refl eq_refl eq_refl eq_refl)
    as (fq & Hresp & Hin & _).
  - exists (question 10 1 1 "q1" true). split; [simpl; auto|]. split; reflexivity.
  - exists fq. split; assumption.
Defined.

(** ** The download loops *)

(** The loop of the answer job, when the recording is ready at attempt [k]. *)
Lemma download_loop_stops_when_ready w k r :
  ready_at w k r ->
  download_loop w 5 (range 5) 2 None
  = (loop_break r, backoff k ++ [requested (Z.of_nat k)]).
Proof.
  intros (Hk & Hbefore & Hget & Hok). apply Z.eqb_eq in Hok.
  change (range 5) with [0; 1; 2; 3; 4]. cbn [download_loop].
  destruct k as [|[|[|[|[|k]]]]]; [| | | | |lia]; simpl Z.of_nat in *.
  - rewrite Hget, Hok. reflexivity.
  - use_attempt Hbefore 0. rewrite Hget, Hok. reflexivity.
  - use_attempt Hbefore 0. use_attempt Hbefore 1. rewrite Hget, Hok. reflexivity.
  - use_attempt Hbefore 0. use_attempt Hbefore 1. use_attempt Hbefore 2.
    rewrite Hget, Hok. reflexivity.
  - use_attempt Hbefore 0. use_attempt Hbefore 1. use_attempt Hbefore 2.
    use_attempt Hbefore 3. rewrite Hget, Hok. reflexivity.
Qed.

(** X7: when the recording answers 200 at attempt k (counted from 0)
    after k other answers, the answer job's loop stops there with that
    response, having requested k+1 times and slept 2, 4, ... seconds in
    between; nothing is requested after the success. *)
Theorem download_loop_ready_at w k r :
  ready_at w k r ->
  download_loop w 5 (range 5) 2 None
  = (loop_break r, backoff k ++ [requested (Z.of_nat k)]).
Proof. exact (download_loop_stops_when_ready w k r). Qed.

Lemma download_loop_ready_at_witness :
  download_loop ready_third_world 5 (range 5) 2 None
  = (loop_break {| status_code := 200; content := "mp3" |},
     [requested 0; slept 2; requested 1; slept 4; requested 2]).
Proof.
  apply (download_loop_ready_at ready_third_world 2
           {| status_code := 200; content := "mp3" |}).
  split; [lia|]. split; [|split; reflexivity].
  intros n Hn. exists {| status_code := 404; content := "" |}.
  split; [|simpl; lia].
  simpl. destruct (Z.ltb_spec n 2); [reflexivity|simpl in Hn; lia].
Defined.

Lemma message_download_loop_ready_at w k r :
  ready_at w k r ->
  message_download_loop w (range 5) 2 None
  = (loop_break r, backoff k ++ [requested (Z.of_nat k)]).
Proof.
  intros (Hk & Hbefore & Hget & Hok). apply Z.eqb_eq in Hok.
  change (range 5) with [0; 1; 2; 3; 4]. cbn [message_download_loop].
  destruct k as [|[|[|[|[|k]]]]]; [| | | | |lia]; simpl Z.of_nat in *.
  - rewrite Hget, Hok. reflexivity.
  - use_attempt Hbefore 0. rewrite Hget, Hok. reflexivity.
  - use_attempt Hbefore 0. use_attempt Hbefore 1. rewrite Hget, Hok. reflexivity.
  - use_attempt Hbefore 0. use_attempt Hbefore 1. use_attempt Hbefore 2.
    rewrite Hget, Hok. reflexivity.
  - use_attempt Hbefore 0. use_attempt Hbefore 1. use_attempt Hbefore 2.
    use_attempt Hbefore 3. rewrite Hget, Hok. reflexivity.
Qed.

Lemma message_download_loop_never_ready w :
  never_ready w ->
  exists r, requests_get w 4 = returns r
    /\ status_code r <> 200
    /\ message_download_loop w (range 5) 2 None = (loop_end (Some r), backoff 5).
Proof.
  intros Hnever. change (range 5) with [0; 1; 2; 3; 4].
  destruct (Hnever 4 ltac:(lia)) as (r4 & H4 & S4).
  exists r4. split; [exact H4|]. split; [exact S4|].
  apply Z.eqb_neq in S4. cbn [message_download_loop].
  use_attempt Hnever 0. use_attempt Hnever 1. use_attempt Hnever 2.
  use_attempt Hnever 3. rewrite H4, S4. reflexivity.
Qed.

(** X8: the message job's loop differs from the answer job's: when none of
    the five downloads answers 200 it has slept after every attempt, the
    fifth included (2, 4, 8, 16 and 32 seconds), and the job then ends
    without touching the database; when the recording is ready at attempt
    k, it stops there like the answer job's. *)
Theorem message_download_backoff message_id recording_url recording_sid w db :
  truthy (OPENAI_API_KEY w) <> None ->
  (never_ready w ->
     transcribe_message_with_whisper message_id recording_url recording_sid w db
     = (db, backoff 5)
     /\ delays (backoff 5) = [2; 4; 8; 16; 32])
  /\ (forall k r, ready_at w k r ->
        snd (transcribe_message_with_whisper message_id recording_url
               recording_sid w db)
        = backoff k ++ [requested (Z.of_nat k)]).
Proof.
  intros Hkey. unfold transcribe_message_with_whisper.
  destruct (truthy (OPENAI_API_KEY w)); [|congruence]. split.
  - intros Hnever.
    destruct (message_download_loop_never_ready w Hnever) as (r & _ & Hs & ->).
    apply Z.eqb_neq in Hs. rewrite Hs. split; reflexivity.
  - intros k r Hready. rewrite (message_download_loop_ready_at w k r Hready).
    destruct Hready as (_ & _ & _ & Hok). apply Z.eqb_eq in Hok. rewrite Hok.
    cbn [negb]. cbv iota.
    destruct (write_temp_file w (content r)); [|reflexivity].
    destruct (transcriptions_create w); [|reflexivity].
    destruct (commit w); reflexivity.
Qed.

Lemma message_download_backoff_witness :
  transcribe_message_with_whisper 1 "http://rec" "RE9" not_ready_world one_message_db
  = (one_message_db, backoff 5).
Proof.
  destruct (message_download_backoff 1 "http://rec" "RE9" not_ready_world
              one_message_db) as [Hnever _].
  - simpl. discriminate.
  - destruct Hnever as [Hrun _]; [|exact Hrun].
    intros n Hn. exists {| status_code := 404; content := "" |}.
    split; [reflexivity|]. simpl. lia.
Defined.

(** ** What a run of the answer job can write *)

Lemma set_logs_answers_same db :
  set_transcription_logs (set_answers db (answers db)) (transcription_logs db) = db.
Proof. destruct db; reflexivity. Qed.

Section JobEffect.
Context (answer_id : Z) (recording_sid : string).

Lemma except_block_effect w e audio_bytes db :
  except_block answer_id recording_sid w e audio_bytes db = db
  \/ except_block answer_id recording_sid w e audio_bytes db
     = failed_db answer_id recording_sid audio_bytes e db.
Proof.
  unfold except_block.
  destruct (first _); [destruct (except_commit w)|]; [now right|now left|now left].
Qed.

(** A run leaves the database as it was, or as the except block writes
    it, or as the write-back writes it, or as the except block writes it
    on top of the write-back. *)
Lemma transcribe_with_whisper_effect recording_url w db :
  let db' :=
    fst (transcribe_with_whisper answer_id recording_url recording_sid w db) in
  db' = db
  \/ (exists e audio_bytes, db' = failed_db answer_id recording_sid audio_bytes e db)
  \/ (exists audio_bytes transcript,
        transcriptions_create w = returns transcript
        /\ (db' = write_back answer_id recording_sid audio_bytes transcript
                    (elapsed w) db
            \/ exists e,
                 db' = failed_db answer_id recording_sid (Some audio_bytes) e
                         (write_back answer_id recording_sid audio_bytes transcript
                            (elapsed w) db))).
Proof.
  intros db'. subst db'.
  assert (Hexc : forall e ab,
    except_block answer_id recording_sid w e ab db = db
    \/ (exists e' ab', except_block answer_id recording_sid w e ab db
                       = failed_db answer_id recording_sid ab' e' db)
    \/ (exists audio_bytes transcript,
          transcriptions_create w = returns transcript
          /\ (except_block answer_id recording_sid w e ab db
              = write_back answer_id recording_sid audio_bytes transcript
                  (elapsed w) db
              \/ exists e',
                   except_block answer_id recording_sid w e ab db
                   = failed_db answer_id recording_sid (Some audio_bytes) e'
                       (write_back answer_id recording_sid audio_bytes transcript
                          (elapsed w) db)))).
  { intros e ab. destruct (except_block_effect w e ab db) as [-> | ->]; [now left|].
    right. left. eauto. }
  assert (Hafter : forall r,
    after_download answer_id recording_sid w r db = db
    \/ (exists e ab, after_download answer_id recording_sid w r db = failed_db answer_id recording_sid ab e db)
    \/ (exists audio_bytes transcript,
          transcriptions_create w = returns transcript
          /\ (after_download answer_id recording_sid w r db
              = write_back answer_id recording_sid audio_bytes transcript
                  (elapsed w) db
              \/ exists e,
                   after_download answer_id recording_sid w r db
                   = failed_db answer_id recording_sid (Some audio_bytes) e
                       (write_back answer_id recording_sid audio_bytes transcript
                          (elapsed w) db)))).
  { intros r. unfold after_download.
    destruct (write_temp_file w (content r)) as [audio_bytes|e]; [|apply Hexc].
    destruct (transcriptions_create w) as [transcript|e] eqn:Hcreate; [|apply Hexc].
    destruct (first _).
    - destruct (commit w) as [|e]; [|apply Hexc].
      right. right. exists audio_bytes, transcript. split; [reflexivity|].
      destruct (clean_up w) as [|e]; [now left|].
      destruct (except_block_effect w e (Some audio_bytes)
                  (write_back answer_id recording_sid audio_bytes transcript
                     (elapsed w) db)) as [-> | ->]; [now left|right; eauto].
    - destruct (clean_up w) as [|e]; [now left|apply Hexc]. }
  unfold transcribe_with_whisper.
  destruct (truthy (OPENAI_API_KEY w)); [|now left].
  destruct (download_loop w 5 (range 5) 2 None) as [exit trace].
  destruct exit as [r| |e|[r|]]; cbn [fst]; auto.
Qed.

Lemma mark_both_rows w transcript rows :
  transcriptions_create w = returns transcript ->
  Forall2 (row_effect w) rows
    (mark_failed answer_id recording_sid
       (mark_completed answer_id recording_sid transcript rows)).
Proof.
  intros Hcreate. unfold mark_failed, mark_completed.
  induction rows as [|a rows IH]; simpl; [constructor|].
  destruct (guard answer_id recording_sid a) eqn:Hg; simpl.
  - change (guard answer_id recording_sid
              (set_transcript (Some (text transcript)) "completed" a))
      with (guard answer_id recording_sid a).
    rewrite Hg. constructor.
    + right. right. exists transcript. split; [exact Hcreate|]. now right.
    + apply Forall2_same. intros x. now left.
  - rewrite Hg. constructor; [now left|exact IH].
Qed.

Lemma mark_rows (R : Answer.t -> Answer.t -> Prop) f rows :
  (forall a, R a a) -> (forall a, R a (f a)) ->
  Forall2 R rows (update_first (guard answer_id recording_sid) f rows).
Proof.
  intros Hrefl Hf. induction rows as [|a rows IH]; simpl; [constructor|].
  destruct (guard answer_id recording_sid a).
  - constructor; [apply Hf|now apply Forall2_same].
  - constructor; [apply Hrefl|exact IH].
Qed.

Lemma transcribe_with_whisper_rows recording_url w db :
  Forall2 (row_effect w) (answers db)
    (answers (fst (transcribe_with_whisper answer_id recording_url recording_sid w db))).
Proof.
  assert (Hrefl : forall a, row_effect w a a) by (intros a; now left).
  destruct (transcribe_with_whisper_effect recording_url w db)
    as [->|[(e & ab & ->)|(ab & t & Hcreate & [->|(e & ->)])]].
  - now apply Forall2_same.
  - cbn [failed_db answers add_log set_transcription_logs set_answers].
    apply mark_rows; [exact Hrefl|]. intros a. right. now left.
  - cbn [write_back answers add_log set_transcription_logs set_answers].
    apply mark_rows; [exact Hrefl|]. intros a. right. right.
    exists t. split; [exact Hcreate|]. now left.
  - cbn [failed_db write_back answers add_log set_transcription_logs set_answers].
    now apply mark_both_rows.
Qed.

End JobEffect.

(** X9: one run of the answer job leaves each Answer row as it was, or
    marks it failed with its text kept, or stores exactly the text the
    transcription service returned in this run (marked completed, or
    failed when an exception followed the commit); it never erases a
    transcript and never writes a text of its own. *)
Theorem transcript_text_comes_from_whisper answer_id recording_url recording_sid w db :
  Forall2 (row_effect w) (answers db)
    (answers (fst (transcribe_with_whisper answer_id recording_url recording_sid w db)))
  /\ (forall e, transcriptions_create w = raises e ->
        Forall2 (fun a a' => Answer.transcript_text a' = Answer.transcript_text a)
          (answers db)
          (answers (fst (transcribe_with_whisper answer_id recording_url
                           recording_sid w db)))).
Proof.
  split; [apply transcribe_with_whisper_rows|].
  intros e Hraises.
  eapply Forall2_impl; [|apply transcribe_with_whisper_rows].
  intros a a' [->|[->|(t & Hcreate & _)]]; [reflexivity|reflexivity|congruence].
Qed.

Lemma transcript_text_comes_from_whisper_witness :
  Forall2 (fun a a' => Answer.transcript_text a' = Answer.transcript_text a)
    (answers two_answers_db)
    (answers (fst (transcribe_with_whisper 2 "http://rec" "RE2" whisper_down_world
                     two_answers_db))).
Proof.
  destruct (transcript_text_comes_from_whisper 2 "http://rec" "RE2"
              whisper_down_world two_answers_db) as [_ Hkeep].
  apply (Hkeep (OtherError "503")). reflexivity.
Defined.

(** ** The outcomes of the answer job *)

Lemma except_block_failed_db answer_id recording_sid w e audio_bytes db :
  guard_accepts answer_id recording_sid db ->
  except_commit w = returns tt ->
  except_block answer_id recording_sid w e audio_bytes db
  = failed_db answer_id recording_sid audio_bytes e db.
Proof.
  intros Hacc Hexc. destruct (find_guard_accepts _ _ _ Hacc) as [a Ha].
  unfold except_block. rewrite first_filter, Ha, Hexc. reflexivity.
Qed.

Lemma truthy_some (key : option string) :
  truthy key <> None -> exists k, truthy key = Some k.
Proof. destruct (truthy key) as [k|]; [eauto|congruence]. Qed.

Example ready_at_third_attempt :
  transcribe_with_whisper 2 "http://rec" "RE2" ready_third_world two_answers_db
  = (write_back 2 "RE2" 3 {| text := "hai"; duration := 2 |} 1 two_answers_db,
     [requested 0; slept 2; requested 1; slept 4; requested 2]).
Proof. reflexivity. Qed.

(** The run of the answer job in which every step returns. *)
Lemma transcribe_with_whisper_all_return
    answer_id recording_url recording_sid w db k r audio_bytes transcript :
  truthy (OPENAI_API_KEY w) <> None ->
  ready_at w k r ->
  returns_after_download w r audio_bytes transcript ->
  guard_accepts answer_id recording_sid db ->
  let result := transcribe_with_whisper answer_id recording_url recording_sid w db in
  fst result
  = set_transcription_logs
      (set_answers db (mark_completed answer_id recording_sid transcript (answers db)))
      (transcription_logs db
       ++ [success_log answer_id recording_sid audio_bytes transcript (elapsed w)
             (next_id (map TranscriptionLog.id (transcription_logs db)))])
  /\ snd result = backoff k ++ [requested (Z.of_nat k)].
Proof.
  intros Hkey Hready (Hwrite & Hcreate & Hcommit & Hclean) Hacc result.
  subst result. unfold transcribe_with_whisper.
  destruct (truthy_some _ Hkey) as [key ->].
  rewrite (download_loop_stops_when_ready w k r Hready). cbn [fst snd].
  split; [|reflexivity].
  destruct (find_guard_accepts _ _ _ Hacc) as [a Ha].
  unfold after_download.
  rewrite Hwrite, Hcreate, first_filter, Ha, Hcommit, Hclean. reflexivity.
Qed.

(** A text of at most [n] characters is its own slice [[:n]]. *)
Lemma slice_chars_whole s : forall n,
  (char_count s <= n)%nat -> slice_chars n s = s.
Proof.
  induction s as [|c rest IH]; intros n Hn; simpl in *; [reflexivity|].
  destruct (is_continuation c).
  - now rewrite IH.
  - destruct n as [|n]; [lia|]. rewrite IH; [reflexivity|lia].
Qed.

(** A slice [[:n]] holds at most [n] characters. *)
Lemma slice_chars_count s : forall n, (char_count (slice_chars n s) <= n)%nat.
Proof.
  induction s as [|c rest IH]; intros n; simpl; [lia|].
  destruct (is_continuation c) eqn:Hc; simpl.
  - rewrite Hc. apply IH.
  - destruct n as [|n]; simpl; [lia|]. rewrite Hc. specialize (IH n). lia.
Qed.

Example kana_is_counted_by_character :
  String.length (repeat_string 334 "あ") = 1002%nat
  /\ char_count (repeat_string 334 "あ") = 334%nat
  /\ slice_chars 1000 (repeat_string 334 "あ") = repeat_string 334 "あ"
  /\ slice_chars 1000 (repeat_string 1001 "あ") = repeat_string 1000 "あ".
Proof. repeat split; vm_compute; reflexivity. Qed.

(** X10: with an API key, a recording that is ready within the five
    attempts, every later step returning and the guard accepting, the
    answer job marks the guarded Answer 'completed' with the text the
    service returned, appends exactly one 'success' log row (file size,
    duration, processing time, and as response payload the first 1000
    characters of the text: the whole text when it has at most 1000
    characters) and changes nothing else. *)
Theorem transcribe_with_whisper_success
    answer_id recording_url recording_sid w db k r audio_bytes transcript :
  truthy (OPENAI_API_KEY w) <> None ->
  ready_at w k r ->
  returns_after_download w r audio_bytes transcript ->
  guard_accepts answer_id recording_sid db ->
  let result := transcribe_with_whisper answer_id recording_url recording_sid w db in
  let row :=
    success_log answer_id recording_sid audio_bytes transcript (elapsed w)
      (next_id (map TranscriptionLog.id (transcription_logs db))) in
  fst result
  = set_transcription_logs
      (set_answers db (mark_completed answer_id recording_sid transcript (answers db)))
      (transcription_logs db ++ [row])
  /\ snd result = backoff k ++ [requested (Z.of_nat k)]
  /\ TranscriptionLog.status row = "success"%string
  /\ TranscriptionLog.audio_bytes row = Some audio_bytes
  /\ (exists payload,
        TranscriptionLog.response_payload row = Some payload
        /\ (char_count payload <= 1000)%nat
        /\ ((char_count (text transcript) <= 1000)%nat -> payload = text transcript)).
Proof.
  intros Hkey Hready Hreturns Hacc result row.
  destruct (transcribe_with_whisper_all_return answer_id recording_url recording_sid
              w db k r audio_bytes transcript Hkey Hready Hreturns Hacc)
    as [Hdb Htrace].
  split; [exact Hdb|]. split; [exact Htrace|]. split; [reflexivity|].
  split; [reflexivity|].
  subst row. cbn [success_log TranscriptionLog.response_payload].
  destruct (String.eqb_spec (text transcript) "") as [Hempty|Hne].
  - exists ""%string. split; [reflexivity|]. split; [simpl; lia|].
    intros _. now rewrite Hempty.
  - exists (slice_chars 1000 (text transcript)). split; [reflexivity|].
    split; [apply slice_chars_count|]. intros Hshort. now apply slice_chars_whole.
Qed.

Lemma transcribe_with_whisper_success_witness :
  snd (transcribe_with_whisper 2 "http://rec" "RE2" ready_third_world two_answers_db)
  = backoff 2 ++ [requested 2].
Proof.
  apply (transcribe_with_whisper_success 2 "http://rec" "RE2" ready_third_world
           two_answers_db 2 {| status_code := 200; content := "mp3" |} 3
           {| text := "hai"; duration := 2 |}).
  - simpl. discriminate.
  - split; [lia|]. split; [|split; reflexivity].
    intros n Hn. exists {| status_code := 404; content := "" |}.
    split; [|simpl; lia].
    simpl. destruct (Z.ltb_spec n 2); [reflexivity|simpl in Hn; lia].
  - repeat split.
  - exists (sample_answer 2 "RE2"). simpl. auto.
Defined.

(** X11: with an API key, a downloaded recording and the guard accepting,
    an exception raised by the temp-file write, by the transcription
    service or by the commit is handled by the except block.  When the
    block's own commit returns, the guarded Answer is marked 'failed' with
    its transcript text kept and exactly one 'failed' log row is appended,
    holding the exception text and the file size (0 when the file was not
    written).  When the block's own commit raises, nothing is stored. *)
Theorem transcribe_with_whisper_failure
    answer_id recording_url recording_sid w db k r e audio_bytes :
  truthy (OPENAI_API_KEY w) <> None ->
  ready_at w k r ->
  raises_before_commit w r e audio_bytes ->
  guard_accepts answer_id recording_sid db ->
  let db' :=
    fst (transcribe_with_whisper answer_id recording_url recording_sid w db) in
  (except_commit w = returns tt ->
   db' = set_transcription_logs
           (set_answers db (mark_failed answer_id recording_sid (answers db)))
           (transcription_logs db
            ++ [failure_log answer_id recording_sid audio_bytes e
                  (next_id (map TranscriptionLog.id (transcription_logs db)))])
   /\ TranscriptionLog.status
        (failure_log answer_id recording_sid audio_bytes e
           (next_id (map TranscriptionLog.id (transcription_logs db))))
      = "failed"%string
   /\ TranscriptionLog.response_payload
        (failure_log answer_id recording_sid audio_bytes e
           (next_id (map TranscriptionLog.id (transcription_logs db))))
      = Some (str_exc e)
   /\ Forall2 (fun a a' => Answer.transcript_text a' = Answer.transcript_text a)
        (answers db) (answers db'))
  /\ (forall e', except_commit w = raises e' -> db' = db).
Proof.
  intros Hkey Hready Hraise Hacc db'.
  assert (Hdb : db' = except_block answer_id recording_sid w e audio_bytes db).
  { subst db'. unfold transcribe_with_whisper.
    destruct (truthy_some _ Hkey) as [key ->].
    rewrite (download_loop_stops_when_ready w k r Hready). cbn [fst].
    destruct (find_guard_accepts _ _ _ Hacc) as [a Ha].
    unfold after_download.
    destruct Hraise as [[Hwrite ->]|(n & Hwrite & -> & [Hcreate|[[t Hcreate] Hcommit]])].
    - now rewrite Hwrite.
    - now rewrite Hwrite, Hcreate.
    - now rewrite Hwrite, Hcreate, first_filter, Ha, Hcommit. }
  split.
  - intros Hexc.
    rewrite (except_block_failed_db _ _ _ _ _ _ Hacc Hexc) in Hdb.
    split; [rewrite Hdb; reflexivity|]. split; [reflexivity|]. split; [reflexivity|].
    rewrite Hdb. cbn [failed_db answers add_log set_transcription_logs set_answers].
    apply mark_rows; reflexivity.
  - intros e' Hexc. rewrite Hdb. unfold except_block.
    destruct (first _); [now rewrite Hexc|reflexivity].
Qed.

Lemma transcribe_with_whisper_failure_witness :
  fst (transcribe_with_whisper 2 "http://rec" "RE2" whisper_down_world two_answers_db)
  = set_transcription_logs
      (set_answers two_answers_db (mark_failed 2 "RE2" (answers two_answers_db)))
      [failure_log 2 "RE2" (Some 3) (OtherError "503") 1].
Proof.
  destruct (transcribe_with_whisper_failure 2 "http://rec" "RE2" whisper_down_world
              two_answers_db 0 {| status_code := 200; content := "mp3" |}
              (OtherError "503") (Some 3)) as [Hfailed _].
  - simpl. discriminate.
  - split; [lia|]. split; [|split; reflexivity]. intros n Hn. simpl in Hn. lia.
  - right. exists 3. split; [reflexivity|]. split; [reflexivity|]. now left.
  - exists (sample_answer 2 "RE2"). simpl. auto.
  - exact (proj1 (Hfailed eq_refl)).
Defined.

(** ** What the operations write, table by table *)

Lemma handle_incoming_call_effect To From CallSid rec db :
  fst (fst (handle_incoming_call To From CallSid rec db)) = db
  \/ (fresh_call db CallSid
      /\ exists call,
           fst (fst (handle_incoming_call To From CallSid rec db))
           = set_calls db (calls db ++ [call])
           /\ Call.call_sid call = CallSid
           /\ Call.scenario_id call
              = match lookup_phone_entry db To with
                | Some pe => PhoneNumber.scenario_id pe
                | None => None
                end
           /\ Call.status call = "in-progress"%string
           /\ Call.recording_sid call = started_sid rec).
Proof.
  unfold handle_incoming_call, fresh_call.
  destruct (existsb _ (calls db)); [now left|]. right. split; [reflexivity|].
  cbv zeta.
  match goal with |- context [calls db ++ [?c]] => exists c end.
  split; [|repeat split].
  destruct (lookup_phone_entry db To) as [pe|]; [|reflexivity].
  destruct (phone_scenario db pe) as [scenario|]; [|reflexivity].
  destruct (negb (Scenario.is_active scenario)); [reflexivity|].
  cbv zeta. destruct (first _); reflexivity.
Qed.

Lemma handle_recording_effect scenario_id q_curr CallSid RecordingUrl RecordingSid db :
  exists answer,
    fst (handle_recording scenario_id q_curr CallSid RecordingUrl RecordingSid db)
    = (set_answers db (answers db ++ [answer]),
       [transcribe_with_whisper_task (Answer.id answer) RecordingUrl RecordingSid])
    /\ Answer.id answer = next_id (map Answer.id (answers db))
    /\ Answer.recording_sid answer = Some RecordingSid
    /\ Answer.question_id answer = Some q_curr
    /\ Answer.transcript_status answer = "processing"%string
    /\ Answer.transcript_text answer = None.
Proof.
  unfold handle_recording. cbv zeta.
  match goal with |- context [answers db ++ [?a]] => exists a end.
  split; [|repeat split].
  destruct (get_question db q_curr) as [cq|]; [|reflexivity].
  destruct (first _); reflexivity.
Qed.

Lemma transcribe_message_with_whisper_effect
    message_id recording_url recording_sid w db :
  let db' :=
    fst (transcribe_message_with_whisper message_id recording_url recording_sid w db) in
  db' = db
  \/ exists transcript,
       transcriptions_create w = returns transcript
       /\ db' = set_messages db
                  (update_first (fun m => Message.id m =? message_id)
                     (set_message_text (Some (text transcript))) (messages db)).
Proof.
  intros db'. subst db'. unfold transcribe_message_with_whisper.
  destruct (truthy (OPENAI_API_KEY w)); [|now left].
  destruct (message_download_loop w (range 5) 2 None) as [exit trace].
  destruct exit as [r| |e|[r|]]; cbn [fst]; try (now left).
  all: destruct (negb (status_code r =? 200)); [now left|].
  all: destruct (write_temp_file w (content r)); [|now left].
  all: destruct (transcriptions_create w) as [t|]; [|now left].
  all: destruct (commit w); [|now left].
  all: right; exists t; split; reflexivity.
Qed.

Lemma NoDup_snoc {A} (l : list A) x : NoDup l -> ~ In x l -> NoDup (l ++ [x]).
Proof.
  intros Hl Hx. induction Hl as [|y l Hy Hl IH]; simpl.
  - constructor; [intros []|constructor].
  - constructor.
    + intros Hin. apply in_app_or in Hin. destruct Hin as [Hin|[->|[]]]; [auto|].
      apply Hx. now left.
    + apply IH. intros Hin. apply Hx. now right.
Qed.

Lemma map_update_first {A B} (key : A -> B) p f rows :
  (forall a, key (f a) = key a) ->
  map key (update_first p f rows) = map key rows.
Proof.
  intros Hkey. induction rows as [|r rows IH]; simpl; [reflexivity|].
  destruct (p r); simpl; [now rewrite Hkey|now rewrite IH].
Qed.

Lemma Forall_update_first {A} (P : A -> Prop) p f rows :
  (forall a, P a -> P (f a)) -> Forall P rows -> Forall P (update_first p f rows).
Proof.
  intros Hf Hrows. induction Hrows as [|r rows Hr Hrows IH]; simpl; [constructor|].
  destruct (p r); constructor; auto.
Qed.

Lemma length_update_first {A} p (f : A -> A) rows :
  List.length (update_first p f rows) = List.length rows.
Proof.
  induction rows as [|r rows IH]; simpl; [reflexivity|].
  destruct (p r); simpl; [reflexivity|now rewrite IH].
Qed.

Lemma fresh_call_not_in db CallSid :
  fresh_call db CallSid -> ~ In CallSid (map Call.call_sid (calls db)).
Proof.
  unfold fresh_call. intros Hfresh Hin. apply in_map_iff in Hin.
  destruct Hin as (c & Hc & Hin).
  assert (Hex : existsb (fun c => String.eqb (Call.call_sid c) CallSid) (calls db)
                = true).
  { apply existsb_exists. exists c. split; [exact Hin|]. now apply String.eqb_eq. }
  congruence.
Qed.

(** ** Invariants of the call ledger *)

Lemma ledger_keyed_failed_db answer_id recording_sid audio_bytes e db :
  ledger_keyed db -> ledger_keyed (failed_db answer_id recording_sid audio_bytes e db).
Proof.
  intros (Hc & Ha & Hm & Hl). unfold ledger_keyed, failed_db, mark_failed.
  cbn [calls answers messages transcription_logs add_log set_transcription_logs
       set_answers].
  split; [exact Hc|]. split; [|split; [exact Hm|]].
  - rewrite map_update_first; [exact Ha|reflexivity].
  - rewrite map_app. apply NoDup_snoc; [exact Hl|]. apply next_id_fresh.
Qed.

Lemma ledger_keyed_write_back answer_id recording_sid audio_bytes transcript time db :
  ledger_keyed db ->
  ledger_keyed (write_back answer_id recording_sid audio_bytes transcript time db).
Proof.
  intros (Hc & Ha & Hm & Hl). unfold ledger_keyed, write_back.
  cbn [calls answers messages transcription_logs add_log set_transcription_logs
       set_answers].
  split; [exact Hc|]. split; [|split; [exact Hm|]].
  - rewrite map_update_first; [exact Ha|reflexivity].
  - rewrite map_app. apply NoDup_snoc; [exact Hl|]. apply next_id_fresh.
Qed.

Lemma exec_ledger_keyed op db : ledger_keyed db -> ledger_keyed (exec op db).
Proof.
  intros Hkeyed. destruct op; cbn [exec].
  - destruct (handle_incoming_call_effect To From CallSid rec db)
      as [->|(Hfresh & call & -> & Hsid & _)]; [exact Hkeyed|].
    destruct Hkeyed as (Hc & Ha & Hm & Hl). unfold ledger_keyed.
    cbn [calls answers messages transcription_logs set_calls].
    split; [|auto]. rewrite map_app. apply NoDup_snoc; [exact Hc|].
    simpl. rewrite Hsid. now apply fresh_call_not_in.
  - destruct (handle_recording_effect scenario_id q_curr CallSid RecordingUrl
                RecordingSid db) as (answer & -> & Hid & _).
    destruct Hkeyed as (Hc & Ha & Hm & Hl). unfold ledger_keyed.
    cbn [fst calls answers messages transcription_logs set_answers].
    split; [exact Hc|]. split; [|auto]. rewrite map_app.
    apply NoDup_snoc; [exact Ha|]. simpl. rewrite Hid. apply next_id_fresh.
  - destruct Hkeyed as (Hc & Ha & Hm & Hl). unfold ledger_keyed.
    cbn [handle_message_recording fst calls answers messages transcription_logs
         set_messages].
    split; [exact Hc|]. split; [exact Ha|]. split; [|exact Hl].
    rewrite map_app. apply NoDup_snoc; [exact Hm|]. apply next_id_fresh.
  - now rewrite handle_message_confirm_db.
  - exact Hkeyed.
  - destruct (transcribe_with_whisper_effect answer_id recording_sid recording_url w db)
      as [->|[(e & ab & ->)|(ab & t & _ & [->|(e & ->)])]].
    + exact Hkeyed.
    + now apply ledger_keyed_failed_db.
    + now apply ledger_keyed_write_back.
    + now apply ledger_keyed_failed_db, ledger_keyed_write_back.
  - destruct (transcribe_message_with_whisper_effect message_id recording_url
                recording_sid w db) as [->|(t & _ & ->)]; [exact Hkeyed|].
    destruct Hkeyed as (Hc & Ha & Hm & Hl). unfold ledger_keyed.
    cbn [calls answers messages transcription_logs set_messages].
    split; [exact Hc|]. split; [exact Ha|]. split; [|exact Hl].
    rewrite map_update_first; [exact Hm|reflexivity].
  - exact Hkeyed.
Qed.

(** X12: the primary keys of the call ledger stay keys: if call
    identifiers, answer ids, message ids and log ids are each unique, they
    still are after any history of callbacks, job runs and edits (a
    repeated Call-Start stores nothing; new answers, messages and log rows
    get an id above every id in use). *)
Theorem ledger_keys_stay_unique ops db :
  ledger_keyed db -> ledger_keyed (run ops db).
Proof.
  revert db. induction ops as [|op ops IH]; intros db Hkeyed; cbn [run fold_left].
  - exact Hkeyed.
  - apply IH. now apply exec_ledger_keyed.
Qed.

Lemma ledger_keys_stay_unique_witness :
  ledger_keyed
    (run [op_voice "+81312345678" "+819000000000" "CA1" credentials_unset;
          op_voice "+81312345678" "+819000000000" "CA1" credentials_unset;
          op_record_callback 1 10 "CA1" "http://rec" "RE1";
          op_transcribe_answer 1 "http://rec" "RE1" good_world]
       (survey_db [phone "+81312345678" (Some 1) true] [question 10 1 1 "q1" true])).
Proof.
  apply ledger_keys_stay_unique.
  unfold ledger_keyed. simpl. repeat split; constructor.
Defined.

Lemma valid_status_failed_db answer_id recording_sid audio_bytes e db :
  Forall valid_status (answers db) ->
  Forall valid_status (answers (failed_db answer_id recording_sid audio_bytes e db)).
Proof.
  intros H. cbn [failed_db answers add_log set_transcription_logs set_answers].
  apply Forall_update_first; [|exact H].
  intros a _. unfold valid_status. simpl. auto.
Qed.

Lemma valid_status_write_back answer_id recording_sid audio_bytes transcript time db :
  Forall valid_status (answers db) ->
  Forall valid_status
    (answers (write_back answer_id recording_sid audio_bytes transcript time db)).
Proof.
  intros H. cbn [write_back answers add_log set_transcription_logs set_answers].
  apply Forall_update_first; [|exact H].
  intros a _. unfold valid_status. simpl. auto.
Qed.

Lemma exec_valid_status op db :
  Forall valid_status (answers db) -> Forall valid_status (answers (exec op db)).
Proof.
  intros Hvalid. destruct op; cbn [exec].
  - destruct (handle_incoming_call_db To From CallSid rec db) as [cs ->]. exact Hvalid.
  - destruct (handle_recording_effect scenario_id q_curr CallSid RecordingUrl
                RecordingSid db) as (answer & -> & _ & _ & _ & Hstatus & _).
    cbn [fst answers set_answers]. apply Forall_app. split; [exact Hvalid|].
    constructor; [|constructor]. unfold valid_status. auto.
  - exact Hvalid.
  - now rewrite handle_message_confirm_db.
  - exact Hvalid.
  - destruct (transcribe_with_whisper_effect answer_id recording_sid recording_url w db)
      as [->|[(e & ab & ->)|(ab & t & _ & [->|(e & ->)])]].
    + exact Hvalid.
    + now apply valid_status_failed_db.
    + now apply valid_status_write_back.
    + now apply valid_status_failed_db, valid_status_write_back.
  - destruct (transcribe_message_with_whisper_db message_id recording_url
                recording_sid w db) as [ms ->]. exact Hvalid.
  - exact Hvalid.
Qed.

(** X13: transcript_status stays within pending, processing, completed,
    failed: if every stored Answer has one of these values, so has every
    Answer after any history; the router itself writes only 'processing'
    (at creation), 'completed' and 'failed'. *)
Theorem transcript_status_stays_valid ops db :
  Forall valid_status (answers db) -> Forall valid_status (answers (run ops db)).
Proof.
  revert db. induction ops as [|op ops IH]; intros db Hvalid; cbn [run fold_left].
  - exact Hvalid.
  - apply IH. now apply exec_valid_status.
Qed.

Lemma transcript_status_stays_valid_witness :
  Forall valid_status
    (answers (run [op_record_callback 1 10 "CA1" "http://rec" "RE3";
                   op_transcribe_answer 2 "http://rec" "RE2" whisper_down_world;
                   op_transcribe_answer 3 "http://rec" "RE3" good_world]
                two_answers_db)).
Proof.
  apply transcript_status_stays_valid.
  apply Forall_cons; [unfold valid_status; simpl; auto|].
  apply Forall_cons; [unfold valid_status; simpl; auto|].
  apply Forall_nil.
Defined.

(** ** The survey definition is read, never written *)

Lemma exec_survey_tables op db :
  is_admin_edit op = false -> survey_tables (exec op db) = survey_tables db.
Proof.
  intros Hop. destruct op; cbn [exec]; try discriminate Hop.
  - destruct (handle_incoming_call_db To From CallSid rec db) as [cs ->]. reflexivity.
  - destruct (handle_recording_effect scenario_id q_curr CallSid RecordingUrl
                RecordingSid db) as (answer & -> & _). reflexivity.
  - reflexivity.
  - now rewrite handle_message_confirm_db.
  - reflexivity.
  - destruct (transcribe_with_whisper_effect answer_id recording_sid recording_url w db)
      as [->|[(e & ab & ->)|(ab & t & _ & [->|(e & ->)])]]; reflexivity.
  - destruct (transcribe_message_with_whisper_db message_id recording_url
                recording_sid w db) as [ms ->]. reflexivity.
Qed.

Lemma run_survey_tables ops : forall db,
  no_admin_edit ops -> survey_tables (run ops db) = survey_tables db.
Proof.
  unfold no_admin_edit.
  induction ops as [|op ops IH]; intros db Hops; cbn [run fold_left]; [reflexivity|].
  simpl in Hops. apply andb_true_iff in Hops. destruct Hops as [Hop Hops].
  apply negb_true_iff in Hop.
  unfold run in IH. rewrite IH; [|exact Hops]. now apply exec_survey_tables.
Qed.

(** The responses of Record-Received and of the message confirmation read
    the survey tables only. *)
Lemma responses_read_survey_tables db db' :
  survey_tables db = survey_tables db' ->
  (forall scenario_id q_curr CallSid RecordingUrl RecordingSid,
     snd (handle_recording scenario_id q_curr CallSid RecordingUrl RecordingSid db)
     = snd (handle_recording scenario_id q_curr CallSid RecordingUrl RecordingSid db'))
  /\ (forall scenario_id Digits,
        snd (handle_message_confirm scenario_id Digits db)
        = snd (handle_message_confirm scenario_id Digits db')).
Proof.
  unfold survey_tables. intros [= Hs He Hp Hq]. split.
  - intros scenario_id q_curr CallSid RecordingUrl RecordingSid.
    unfold handle_recording, get_question, next_questions. rewrite Hq.
    destruct (first (filter _ (questions db'))) as [cq|]; [|reflexivity].
    cbv zeta. destruct (first _); reflexivity.
  - intros scenario_id Digits.
    unfold handle_message_confirm, ending_guidances_of. rewrite He.
    destruct (String.eqb Digits "1"); reflexivity.
Qed.

(** X14: callbacks and transcription jobs never write to the survey
    definition: over any history without administrative edits the
    scenarios, ending guidances, phone numbers and questions are what they
    were; hence the markup of a Record-Received or message-confirmation
    callback does not depend on the calls, answers, messages and logs
    accumulated meanwhile. *)
Theorem survey_definition_is_read_only ops db :
  no_admin_edit ops ->
  survey_tables (run ops db) = survey_tables db
  /\ (forall scenario_id q_curr CallSid RecordingUrl RecordingSid,
        snd (handle_recording scenario_id q_curr CallSid RecordingUrl RecordingSid
               (run ops db))
        = snd (handle_recording scenario_id q_curr CallSid RecordingUrl RecordingSid db))
  /\ (forall scenario_id Digits,
        snd (handle_message_confirm scenario_id Digits (run ops db))
        = snd (handle_message_confirm scenario_id Digits db)).
Proof.
  intros Hops. pose proof (run_survey_tables ops db Hops) as Hsame.
  split; [exact Hsame|]. now apply responses_read_survey_tables.
Qed.

Lemma survey_definition_is_read_only_witness :
  survey_tables
    (run [op_voice "+81312345678" "+819000000000" "CA1" credentials_unset;
          op_record_callback 1 10 "CA1" "http://rec" "RE1";
          op_transcribe_answer 1 "http://rec" "RE1" good_world;
          op_message_record 1 "CA1" "http://rec" "RE9";
          op_transcribe_message 1 "http://rec" "RE9" good_world]
       (survey_db [phone "+81312345678" (Some 1) true] [question 10 1 1 "q1" true]))
  = survey_tables
      (survey_db [phone "+81312345678" (Some 1) true] [question 10 1 1 "q1" true]).
Proof.
  apply survey_definition_is_read_only. reflexivity.
Defined.

(** ** Rows of the ledger are never removed *)

Lemma exec_calls op db : exists added, calls (exec op db) = calls db ++ added.
Proof.
  assert (Hsame : exists added, calls db = calls db ++ added).
  { exists []. now rewrite app_nil_r. }
  destruct op; cbn [exec].
  - destruct (handle_incoming_call_effect To From CallSid rec db)
      as [->|(_ & call & -> & _)]; [exact Hsame|].
    exists [call]. reflexivity.
  - destruct (handle_recording_effect scenario_id q_curr CallSid RecordingUrl
                RecordingSid db) as (answer & -> & _). exact Hsame.
  - exact Hsame.
  - now rewrite handle_message_confirm_db.
  - exact Hsame.
  - destruct (transcribe_with_whisper_effect answer_id recording_sid recording_url w db)
      as [->|[(e & ab & ->)|(ab & t & _ & [->|(e & ->)])]]; exact Hsame.
  - destruct (transcribe_message_with_whisper_db message_id recording_url
                recording_sid w db) as [ms ->]. exact Hsame.
  - exact Hsame.
Qed.

Lemma exec_messages_length op db :
  (List.length (messages db) <= List.length (messages (exec op db)))%nat.
Proof.
  destruct op; cbn [exec].
  - destruct (handle_incoming_call_db To From CallSid rec db) as [cs ->]. apply le_n.
  - destruct (handle_recording_effect scenario_id q_curr CallSid RecordingUrl
                RecordingSid db) as (answer & -> & _). apply le_n.
  - cbn [handle_message_recording fst messages set_messages].
    rewrite length_app. simpl. lia.
  - rewrite handle_message_confirm_db. apply le_n.
  - apply le_n.
  - destruct (transcribe_with_whisper_effect answer_id recording_sid recording_url w db)
      as [->|[(e & ab & ->)|(ab & t & _ & [->|(e & ->)])]]; apply le_n.
  - destruct (transcribe_message_with_whisper_effect message_id recording_url
                recording_sid w db) as [->|(t & _ & ->)]; [apply le_n|].
    cbn [messages set_messages]. rewrite length_update_first. apply le_n.
  - apply le_n.
Qed.

(** X15: the router never removes a ledger row and never rewrites a Call:
    after any history the calls table is the old one followed by the new
    calls (so a Call keeps the scenario it got at creation), and the
    answers and messages tables have not shrunk. *)
Theorem ledger_rows_are_kept ops db :
  (exists added, calls (run ops db) = calls db ++ added)
  /\ (List.length (answers db) <= List.length (answers (run ops db)))%nat
  /\ (List.length (messages db) <= List.length (messages (run ops db)))%nat.
Proof.
  split; [|split].
  - revert db. induction ops as [|op ops IH]; intros db; cbn [run fold_left].
    + exists []. now rewrite app_nil_r.
    + destruct (IH (exec op db)) as [later Hlater].
      destruct (exec_calls op db) as [now_added Hnow].
      unfold run in Hlater. rewrite Hlater, Hnow, <- app_assoc. eexists. reflexivity.
  - destruct (run_answers_kept ops db) as (kept & added & -> & Hkept).
    rewrite length_app, <- (Forall2_length Hkept). lia.
  - revert db. induction ops as [|op ops IH]; intros db; cbn [run fold_left].
    + apply le_n.
    + eapply Nat.le_trans; [apply exec_messages_length|apply IH].
Qed.

(** ** A recording and its transcript *)

Lemma update_first_snoc {A} (p : A -> bool) f rows x :
  (forall a, In a rows -> p a = false) -> p x = true ->
  update_first p f (rows ++ [x]) = rows ++ [f x].
Proof.
  intros Hrows Hx. induction rows as [|r rows IH]; simpl.
  - now rewrite Hx.
  - rewrite (Hrows r (or_introl eq_refl)). f_equal. apply IH.
    intros a Ha. apply Hrows. now right.
Qed.



(** X17: the message job changes nothing but the transcript text of the
    first message with its id, and only to the text the service returned;
    when any step fails (no key, no 200 within five attempts, an
    exception) the database is left as it was, so the message keeps its
    placeholder text and no failure is recorded anywhere. *)
Theorem transcribe_message_effect message_id recording_url recording_sid w db :
  let db' :=
    fst (transcribe_message_with_whisper message_id recording_url recording_sid w db) in
  (db' = db
   \/ exists transcript,
        transcriptions_create w = returns transcript
        /\ db' = set_messages db
                   (update_first (fun m => Message.id m =? message_id)
                      (set_message_text (Some (text transcript))) (messages db)))
  /\ ((truthy (OPENAI_API_KEY w) = None
       \/ never_ready w
       \/ (exists e, transcriptions_create w = raises e)
       \/ (exists e, commit w = raises e)) ->
      db' = db).
Proof.
  intros db'. split; [apply transcribe_message_with_whisper_effect|].
  subst db'. unfold transcribe_message_with_whisper.
  intros [Hkey|[Hnever|[[e He]|[e He]]]].
  - now rewrite Hkey.
  - destruct (truthy (OPENAI_API_KEY w)); [|reflexivity].
    destruct (message_download_loop_never_ready w Hnever) as (r & _ & Hs & ->).
    apply Z.eqb_neq in Hs. now rewrite Hs.
  - destruct (truthy (OPENAI_API_KEY w)); [|reflexivity].
    destruct (message_download_loop w (range 5) 2 None) as [exit trace].
    destruct exit as [r| |e'|[r|]]; cbn [fst]; try reflexivity.
    all: destruct (negb (status_code r =? 200)); [reflexivity|].
    all: destruct (write_temp_file w (content r)); [|reflexivity].
    all: now rewrite He.
  - destruct (truthy (OPENAI_API_KEY w)); [|reflexivity].
    destruct (message_download_loop w (range 5) 2 None) as [exit trace].
    destruct exit as [r| |e'|[r|]]; cbn [fst]; try reflexivity.
    all: destruct (negb (status_code r =? 200)); [reflexivity|].
    all: destruct (write_temp_file w (content r)); [|reflexivity].
    all: destruct (transcriptions_create w); [|reflexivity].
    all: now rewrite He.
Qed.

Lemma transcribe_message_effect_witness :
  fst (transcribe_message_with_whisper 1 "http://rec" "RE9" whisper_down_world
         one_message_db)
  = one_message_db.
Proof.
  apply (transcribe_message_effect 1 "http://rec" "RE9" whisper_down_world
           one_message_db).
  right. right. left. exists (OtherError "503"). reflexivity.
Defined.

(** X18: the job that Message-Received schedules finds the Message it
    just stored: in a world where the recording becomes ready and the
    later steps return, it replaces the placeholder of exactly that new
    row by the returned text. *)
Theorem message_then_transcribe
    scenario_id CallSid RecordingUrl RecordingSid db w k r audio_bytes transcript :
  truthy (OPENAI_API_KEY w) <> None ->
  ready_at w k r ->
  write_temp_file w (content r) = returns audio_bytes ->
  transcriptions_create w = returns transcript ->
  commit w = returns tt ->
  exists msg db1,
    fst (handle_message_recording scenario_id CallSid RecordingUrl RecordingSid db)
    = (db1, [transcribe_message_with_whisper_task (Message.id msg) RecordingUrl
               RecordingSid])
    /\ messages db1 = messages db ++ [msg]
    /\ Message.transcript_text msg = Some "(文字起こし中...)"%string
    /\ messages (fst (transcribe_message_with_whisper (Message.id msg) RecordingUrl
                        RecordingSid w db1))
       = messages db ++ [set_message_text (Some (text transcript)) msg].
Proof.
  intros Hkey Hready Hwrite Hcreate Hcommit.
  unfold handle_message_recording. cbv zeta. cbn [fst].
  match goal with |- context [messages db ++ [?m]] => exists m end.
  eexists. split; [reflexivity|]. split; [reflexivity|]. split; [reflexivity|].
  unfold transcribe_message_with_whisper.
  destruct (truthy_some _ Hkey) as [key ->].
  rewrite (message_download_loop_ready_at w k r Hready).
  destruct Hready as (_ & _ & _ & Hok). apply Z.eqb_eq in Hok.
  rewrite Hok, Hwrite, Hcreate, Hcommit.
  cbn [negb fst messages set_messages Message.id].
  apply update_first_snoc; [|apply Z.eqb_refl].
  intros m Hm. apply Z.eqb_neq. intros Heq.
  apply (next_id_fresh (map Message.id (messages db))).
  rewrite <- Heq. now apply in_map.
Qed.

Lemma message_then_transcribe_witness :
  exists msg db1,
    fst (handle_message_recording 1 "CA1" "http://rec" "RE8" one_message_db)
    = (db1, [transcribe_message_with_whisper_task (Message.id msg) "http://rec" "RE8"])
    /\ messages db1 = messages one_message_db ++ [msg]
    /\ Message.transcript_text msg = Some "(文字起こし中...)"%string
    /\ messages (fst (transcribe_message_with_whisper (Message.id msg) "http://rec"
                        "RE8" good_world db1))
       = messages one_message_db ++ [set_message_text (Some "hai"%string) msg].
Proof.
  apply (message_then_transcribe 1 "CA1" "http://rec" "RE8" one_message_db
           good_world 0 {| status_code := 200; content := "mp3" |} 3
           {| text := "hai"; duration := 2 |}).
  - simpl. discriminate.
  - split; [lia|]. split; [|split; reflexivity]. intros n Hn. simpl in Hn. lia.
  - reflexivity.
  - reflexivity.
  - reflexivity.
Defined.

(** ** The end of the call *)

Section OrderBySorted.
Context {A : Type} (key : A -> Z).







End OrderBySorted.

Lemma say_ending_guidances_nonempty eg egs :
  say_ending_guidances (eg :: egs) <> [].
Proof. discriminate. Qed.

Example confirm_ends_in_sort_order :
  snd (handle_message_confirm 1 "2"
         {| scenarios := [survey];
            ending_guidances :=
              [{| EndingGuidance.id := 1; EndingGuidance.scenario_id := Some 1;
                  EndingGuidance.text := "second"; EndingGuidance.sort_order := 5 |};
               {| EndingGuidance.id := 2; EndingGuidance.scenario_id := Some 2;
                  EndingGuidance.text := "other"; EndingGuidance.sort_order := 1 |};
               {| EndingGuidance.id := 3; EndingGuidance.scenario_id := Some 1;
                  EndingGuidance.text := "first"; EndingGuidance.sort_order := 2 |}];
            phone_numbers := []; questions := []; calls := []; messages := [];
            answers := []; transcription_logs := [] |})
  = Response [say_ja "first"; Pause "1"; say_ja "second"; Pause "1";
              say_ja "失礼いたします。"; Hangup] "application/xml".
Proof. reflexivity. Qed.





(** ** The position carried in the action URL *)

Lemma str_int_inj a b : str_int a = str_int b -> a = b.
Proof.
  unfold str_int. intros H. apply DecimalZ.to_int_inj.
  assert (Hs : Some (Z.to_int a) = Some (Z.to_int b)).
  { rewrite <- !NilEmpty.isi. now rewrite H. }
  now injection Hs.
Qed.

Lemma string_of_uint_no_amp d :
  contains_char "&"%char (NilEmpty.string_of_uint d) = false.
Proof. induction d; simpl; auto. Qed.

Lemma str_int_no_amp z : contains_char "&"%char (str_int z) = false.
Proof.
  unfold str_int. destruct (Z.to_int z); simpl; apply string_of_uint_no_amp.
Qed.

Lemma append_inv_head (p a b : string) : (p ++ a = p ++ b)%string -> a = b.
Proof.
  induction p as [|c p IH]; simpl; intros H; [exact H|].
  injection H as H. auto.
Qed.

Lemma split_at_amp (a b x y : string) :
  contains_char "&"%char a = false -> contains_char "&"%char b = false ->
  (a ++ String "&"%char x = b ++ String "&"%char y)%string ->
  a = b /\ x = y.
Proof.
  revert b. induction a as [|c a IH]; intros b Ha Hb H.
  - destruct b as [|d b]; simpl in H.
    + injection H as H. auto.
    + injection H as Hd _. subst d. simpl in Hb. discriminate Hb.
  - destruct b as [|d b]; simpl in H.
    + injection H as Hc _. subst c. simpl in Ha. discriminate Ha.
    + injection H as -> H. simpl in Ha, Hb.
      apply orb_false_iff in Ha. apply orb_false_iff in Hb.
      destruct (IH b (proj2 Ha) (proj2 Hb) H) as [-> ->]. auto.
Qed.

(** X21: the position survives the stateless boundary: the action URL of
    an Ask-Question step determines the scenario id and the question id it
    was built from, and the URLs of the message steps determine their
    scenario id. *)
Theorem action_url_determines_position :
  (forall scenario_id q_curr scenario_id' q_curr',
     record_callback_url scenario_id q_curr = record_callback_url scenario_id' q_curr' ->
     scenario_id = scenario_id' /\ q_curr = q_curr')
  /\ (forall scenario_id scenario_id',
        message_record_url scenario_id = message_record_url scenario_id' ->
        scenario_id = scenario_id')
  /\ (forall scenario_id scenario_id',
        message_confirm_url scenario_id = message_confirm_url scenario_id' ->
        scenario_id = scenario_id').
Proof.
  split; [|split].
  - intros s q s' q' H. unfold record_callback_url in H.
    apply append_inv_head in H.
    change ("&q_curr=" ++ str_int q)%string
      with (String "&"%char ("q_curr=" ++ str_int q)%string) in H.
    change ("&q_curr=" ++ str_int q')%string
      with (String "&"%char ("q_curr=" ++ str_int q')%string) in H.
    apply split_at_amp in H; try apply str_int_no_amp.
    destruct H as [Hs Hq]. apply append_inv_head in Hq.
    split; now apply str_int_inj.
  - intros s s' H. unfold message_record_url in H.
    apply append_inv_head in H. now apply str_int_inj.
  - intros s s' H. unfold message_confirm_url in H.
    apply append_inv_head in H. now apply str_int_inj.
Qed.

Lemma action_url_determines_position_witness :
  record_callback_url 1 10 <> record_callback_url 1 20.
Proof.
  intros H. destruct action_url_determines_position as [Hrec _].
  destruct (Hrec 1 10 1 20 H) as [_ Hq]. discriminate Hq.
Defined.

(** ** Stored rows and their references *)

(** X22: on a new call Call-Start stores exactly one Call row, whatever it
    answers (also for an unmatched number, an inactive scenario or a
    scenario reference that does not resolve): the row holds the call
    identifier, both numbers, status 'in-progress' and the scenario
    reference of the resolved phone row (NULL for an unmatched number), and
    its [scenario_name] is the name of that scenario when the reference
    resolves and None otherwise.  A Call-Start with a call identifier
    already stored writes nothing. *)
Theorem call_start_stores_the_call To From CallSid rec db :
  (fresh_call db CallSid ->
   exists call,
     fst (fst (handle_incoming_call To From CallSid rec db))
     = set_calls db (calls db ++ [call])
     /\ call = {| Call.call_sid := CallSid; Call.from_number := From;
                  Call.to_number := To; Call.status := "in-progress";
                  Call.scenario_id :=
                    match lookup_phone_entry db To with
                    | Some pe => PhoneNumber.scenario_id pe
                    | None => None
                    end;
                  Call.recording_sid := started_sid rec |}
     /\ scenario_name (fst (fst (handle_incoming_call To From CallSid rec db))) call
        = match lookup_phone_entry db To with
          | Some pe => option_map Scenario.name (phone_scenario db pe)
          | None => None
          end)
  /\ (~ fresh_call db CallSid ->
      fst (fst (handle_incoming_call To From CallSid rec db)) = db).
Proof.
  split.
  - intros Hfresh. eexists. split; [|split; [reflexivity|]].
    + unfold fresh_call in Hfresh. unfold handle_incoming_call. rewrite Hfresh.
      destruct (lookup_phone_entry db To) as [pe|]; [|reflexivity].
      destruct (phone_scenario db pe) as [scenario|]; [|reflexivity].
      destruct (negb (Scenario.is_active scenario)); [reflexivity|].
      cbv zeta. destruct (first _); reflexivity.
    + destruct (handle_incoming_call_db To From CallSid rec db) as [cs ->].
      unfold scenario_name, call_scenario. cbn [Call.scenario_id scenarios set_calls].
      destruct (lookup_phone_entry db To) as [pe|]; [|reflexivity].
      unfold phone_scenario.
      destruct (PhoneNumber.scenario_id pe) as [sid|]; [|reflexivity].
      destruct (first _); reflexivity.
  - intros Hstored. now rewrite handle_incoming_call_stored_call.
Qed.

Lemma call_start_stores_the_call_witness :
  exists call,
    fst (fst (handle_incoming_call "+10000" "+819000000000" "CA1" credentials_unset
                (survey_db [] [])))
    = set_calls (survey_db [] []) [call]
    /\ scenario_name
         (fst (fst (handle_incoming_call "+10000" "+819000000000" "CA1"
                      credentials_unset (survey_db [] []))))
         call
       = None.
Proof.
  destruct (call_start_stores_the_call "+10000" "+819000000000" "CA1"
              credentials_unset (survey_db [] [])) as [Hnew _].
  destruct (Hnew eq_refl) as (call & Hdb & _ & Hname).
  exists call. split; [exact Hdb|exact Hname].
Defined.


(** ** The question phase of a call ends *)





Example follow_three_questions :
  follow 10 (survey_db [] [question 10 1 1 "q1" true; question 30 1 7 "q3" true;
                           question 20 1 4 "q2" true; question 40 1 2 "off" false])
    1 10
  = [20; 30].
Proof. reflexivity. Qed.



(** ** Jobs for different recordings do not interfere *)

Lemma update_first_none {A} (p : A -> bool) f rows :
  find p rows = None -> update_first p f rows = rows.
Proof.
  induction rows as [|r rows IH]; simpl; [reflexivity|].
  destruct (p r); [discriminate|]. intros H. now rewrite IH.
Qed.

Lemma update_first_comm {A} (p q : A -> bool) f g rows :
  (forall x, p (g x) = p x) -> (forall x, q (f x) = q x) ->
  (forall x, p x = true -> q x = false) ->
  update_first p f (update_first q g rows) = update_first q g (update_first p f rows).
Proof.
  intros Hpg Hqf Hdisj. induction rows as [|r rows IH]; simpl; [reflexivity|].
  destruct (p r) eqn:Hp; destruct (q r) eqn:Hq; simpl.
  - rewrite (Hdisj r Hp) in Hq. discriminate.
  - now rewrite Hp, Hqf, Hq.
  - now rewrite Hq, Hpg, Hp.
  - now rewrite Hp, Hq, IH.
Qed.

Lemma except_block_answers answer_id recording_sid w e audio_bytes db :
  answers (except_block answer_id recording_sid w e audio_bytes db)
  = match except_commit w with
    | returns _ => mark_failed answer_id recording_sid (answers db)
    | raises _ => answers db
    end.
Proof.
  unfold except_block. rewrite first_filter.
  destruct (find _ (answers db)) eqn:Hfind.
  - destruct (except_commit w); reflexivity.
  - unfold mark_failed. rewrite update_first_none by exact Hfind.
    destruct (except_commit w); reflexivity.
Qed.

(** The answers table after a run is the table before it under
    [job_transform]. *)
Lemma transcribe_with_whisper_answers answer_id recording_url recording_sid w db :
  answers (fst (transcribe_with_whisper answer_id recording_url recording_sid w db))
  = job_transform answer_id recording_sid w (answers db).
Proof.
  assert (Hnone : find (guard answer_id recording_sid) (answers db) = None ->
            (forall t, mark_completed answer_id recording_sid t (answers db)
                       = answers db)
            /\ mark_failed answer_id recording_sid (answers db) = answers db).
  { intros Hfind. unfold mark_completed, mark_failed.
    split; [intros t|]; now rewrite update_first_none. }
  unfold transcribe_with_whisper, job_transform. cbv zeta.
  destruct (truthy (OPENAI_API_KEY w)); [|reflexivity].
  destruct (download_loop w 5 (range 5) 2 None) as [exit trace].
  destruct exit as [r| |e|[r|]]; cbn [fst];
    try reflexivity; try apply except_block_answers.
  all: unfold after_download; rewrite first_filter.
  all: destruct (write_temp_file w (content r)); [|apply except_block_answers].
  all: destruct (transcriptions_create w) as [t|]; [|apply except_block_answers].
  all: destruct (find (guard answer_id recording_sid) (answers db)) eqn:Hfind.
  all: try (destruct (commit w); [|apply except_block_answers];
            destruct (clean_up w); [reflexivity|];
            rewrite except_block_answers; reflexivity).
  all: destruct (Hnone eq_refl) as [Hmc Hmf].
  all: destruct (clean_up w); rewrite ?except_block_answers, ?Hmc, ?Hmf;
         destruct (commit w); destruct (except_commit w); reflexivity.
Qed.

Lemma guards_disjoint a1 s1 a2 s2 x :
  a1 <> a2 \/ s1 <> s2 -> guard a1 s1 x = true -> guard a2 s2 x = false.
Proof.
  intros Hne H1. apply guard_true in H1. destruct H1 as [Hid Hsid].
  destruct (guard a2 s2 x) eqn:H2; [|reflexivity].
  apply guard_true in H2. destruct H2 as [Hid2 Hsid2].
  destruct Hne as [Hne|Hne]; [congruence|]. rewrite Hsid in Hsid2. congruence.
Qed.

Lemma marks_commute a1 s1 a2 s2 f g rows :
  a1 <> a2 \/ s1 <> s2 ->
  (forall x, guard a1 s1 (g x) = guard a1 s1 x) ->
  (forall x, guard a2 s2 (f x) = guard a2 s2 x) ->
  update_first (guard a1 s1) f (update_first (guard a2 s2) g rows)
  = update_first (guard a2 s2) g (update_first (guard a1 s1) f rows).
Proof.
  intros Hne Hg Hf. apply update_first_comm; [exact Hg|exact Hf|].
  intros x. now apply guards_disjoint.
Qed.

Lemma job_transform_comm a1 s1 w1 a2 s2 w2 rows :
  a1 <> a2 \/ s1 <> s2 ->
  job_transform a1 s1 w1 (job_transform a2 s2 w2 rows)
  = job_transform a2 s2 w2 (job_transform a1 s1 w1 rows).
Proof.
  intros Hne.
  assert (Hne' : a2 <> a1 \/ s2 <> s1) by (destruct Hne; [left|right]; congruence).
  unfold job_transform. cbv zeta.
  destruct (truthy (OPENAI_API_KEY w1)); [|reflexivity].
  destruct (truthy (OPENAI_API_KEY w2)); [|reflexivity].
  destruct (except_commit w1); destruct (except_commit w2).
  all:
  destruct (fst (download_loop w1 5 (range 5) 2 None)) as [r1| |e1|[r1|]];
    destruct (fst (download_loop w2 5 (range 5) 2 None)) as [r2| |e2|[r2|]];
    try reflexivity;
    repeat match goal with
           | |- context [write_temp_file ?w ?c] => destruct (write_temp_file w c)
           | |- context [transcriptions_create ?w] => destruct (transcriptions_create w)
           | |- context [commit ?w] => destruct (commit w)
           | |- context [clean_up ?w] => destruct (clean_up w)
           end;
    try reflexivity;
    unfold mark_failed, mark_completed;
    repeat (rewrite (marks_commute a1 s1 a2 s2) by (try exact Hne; reflexivity));
    try reflexivity.
  all: repeat (rewrite <- (marks_commute a2 s2 a1 s1) by (try exact Hne'; reflexivity));
    try reflexivity.
Qed.

Example two_jobs_either_order :
  answers (fst (transcribe_with_whisper 1 "http://rec" "RE1" whisper_down_world
                  (fst (transcribe_with_whisper 2 "http://rec" "RE2" good_world
                          two_answers_db))))
  = [set_transcript None "failed" (sample_answer 1 "RE1");
     set_transcript (Some "hai"%string) "completed" (sample_answer 2 "RE2")].
Proof. reflexivity. Qed.

(** X25: transcription jobs launched for different answers, or for
    different recordings of one answer, do not interfere: whichever of the
    two runs first, the answers table ends the same (each job writes
    through its own guard only). *)
Theorem jobs_for_different_recordings_commute
    answer_id1 url1 recording_sid1 w1 answer_id2 url2 recording_sid2 w2 db :
  answer_id1 <> answer_id2 \/ recording_sid1 <> recording_sid2 ->
  answers
    (fst (transcribe_with_whisper answer_id1 url1 recording_sid1 w1
            (fst (transcribe_with_whisper answer_id2 url2 recording_sid2 w2 db))))
  = answers
      (fst (transcribe_with_whisper answer_id2 url2 recording_sid2 w2
              (fst (transcribe_with_whisper answer_id1 url1 recording_sid1 w1 db)))).
Proof.
  intros Hne. rewrite !transcribe_with_whisper_answers.
  now apply job_transform_comm.
Qed.

Lemma jobs_for_different_recordings_commute_witness :
  answers
    (fst (transcribe_with_whisper 1 "http://rec" "RE1" whisper_down_world
            (fst (transcribe_with_whisper 2 "http://rec" "RE2" good_world
                    two_answers_db))))
  = answers
      (fst (transcribe_with_whisper 2 "http://rec" "RE2" good_world
              (fst (transcribe_with_whisper 1 "http://rec" "RE1" whisper_down_world
                      two_answers_db)))).
Proof.
  apply (jobs_for_different_recordings_commute 1 "http://rec" "RE1" whisper_down_world
           2 "http://rec" "RE2" good_world two_answers_db).
  left. lia.
Defined.

(** ** Which tables an operation writes *)

(** X26: every operation writes to its own tables only.  Call-Start
    leaves answers, messages and logs alone; Record-Received leaves calls,
    messages and logs alone; Message-Received leaves calls, answers and
    logs alone; the message confirmation and the legacy transcription
    callback write nothing; the answer job leaves calls and messages
    alone; the message job leaves calls, answers and logs alone. *)
Theorem operations_write_their_own_tables op db :
  match op with
  | op_voice _ _ _ _ =>
      answers (exec op db) = answers db
      /\ messages (exec op db) = messages db
      /\ transcription_logs (exec op db) = transcription_logs db
  | op_record_callback _ _ _ _ _ =>
      calls (exec op db) = calls db
      /\ messages (exec op db) = messages db
      /\ transcription_logs (exec op db) = transcription_logs db
  | op_message_record _ _ _ _ =>
      calls (exec op db) = calls db
      /\ answers (exec op db) = answers db
      /\ transcription_logs (exec op db) = transcription_logs db
  | op_message_confirm _ _ | op_transcription_callback _ _ => exec op db = db
  | op_transcribe_answer _ _ _ _ =>
      calls (exec op db) = calls db /\ messages (exec op db) = messages db
  | op_transcribe_message _ _ _ _ =>
      calls (exec op db) = calls db
      /\ answers (exec op db) = answers db
      /\ transcription_logs (exec op db) = transcription_logs db
  | op_admin_edit _ _ _ _ =>
      calls (exec op db) = calls db
      /\ answers (exec op db) = answers db
      /\ messages (exec op db) = messages db
      /\ transcription_logs (exec op db) = transcription_logs db
  end.
Proof.
  destruct op; cbn [exec].
  - destruct (handle_incoming_call_db To From CallSid rec db) as [cs ->].
    repeat split.
  - destruct (handle_recording_effect scenario_id q_curr CallSid RecordingUrl
                RecordingSid db) as (answer & -> & _). repeat split.
  - repeat split.
  - apply handle_message_confirm_db.
  - reflexivity.
  - destruct (transcribe_with_whisper_effect answer_id recording_sid recording_url w db)
      as [->|[(e & ab & ->)|(ab & t & _ & [->|(e & ->)])]]; split; reflexivity.
  - destruct (transcribe_message_with_whisper_db message_id recording_url
                recording_sid w db) as [ms ->]. repeat split.
  - repeat split.
Qed.
